(** * cryptoutil: the step-kms-plugin signer of step-cli

    A shallow embedding of [internal/cryptoutil/cryptoutil.go] and of the
    parts of Go's standard library it calls, followed by the properties the
    specification states about it.

    Conventions.
    - A Go [string] and a Go [[]byte] are both sequences of bytes; they are
      modelled by [string] (a list of 8-bit [ascii]).  A nil slice and an
      empty slice are both [""].
    - A Go function returning [(T, error)] returns a pair whose second
      component is an [option error]; [None] is Go's [nil] error.
    - Code that can panic (nil dereference) or that talks to the operating
      system runs in the monad [M]: a state transformer over the heap of
      signers and the log of external calls, whose outcome is a value or a
      panic. *)

From Stdlib Require Import List String Ascii NArith ZArith Lia Bool.
From Stdlib Require Import DecimalString.
Import ListNotations.

Local Open Scope string_scope.
Local Open Scope N_scope.

(* ================================================================= *)
(** * Go's errors *)

Inductive error : Type :=
| errorString (msg : string)                  (* errors.New, fmt.Errorf without %w *)
| wrapError (msg : string) (err : error)      (* fmt.Errorf with %w *)
| ExitError (state : string) (Stderr : string)  (* *exec.ExitError *)
| CorruptInputError (off : Z)                 (* base64.CorruptInputError *)
| foreignError (msg : string).                (* an error made by a collaborator *)

(** [strconv.FormatInt(n, 10)]. *)
Definition FormatInt (n : Z) : string :=
  NilZero.string_of_int (Z.to_int n).

(** The [Error()] method. *)
Definition Error (e : error) : string :=
  match e with
  | errorString msg => msg
  | wrapError msg _ => msg
  | ExitError state _ => state
  | CorruptInputError off => "illegal base64 data at input byte " ++ FormatInt off
  | foreignError msg => msg
  end.

(* ================================================================= *)
(** * encoding/base64, [StdEncoding] *)

Module Base64.

Definition encodeStd : string :=
  "ABCDEFGHIJKLMNOPQRSTUVWXYZabcdefghijklmnopqrstuvwxyz0123456789+/".

Definition padChar : ascii := "="%char.

(** [enc.encode[i]] *)
Definition encodeChar (i : N) : ascii :=
  match String.get (N.to_nat i) encodeStd with
  | Some c => c
  | None => zero
  end.

(** Position of [c] in [s], counted from [i]. *)
Fixpoint indexFrom (c : ascii) (s : string) (i : N) : option N :=
  match s with
  | EmptyString => None
  | String c' s' => if Ascii.eqb c c' then Some i else indexFrom c s' (i + 1)
  end.

(** [enc.decodeMap[c]]: the table is filled with 0xff, then
    [decodeMap[encoder[i]] = i]. *)
Definition decodeMap (c : ascii) : N :=
  match indexFrom c encodeStd 0 with
  | Some i => i
  | None => 255
  end.

(** [byte(x)] *)
Definition byte (x : N) : ascii := ascii_of_N (N.land x 255).

(** The three bytes of a 24-bit value, most significant first. *)
Definition bytesOf (val : N) : string :=
  String (byte (N.shiftr val 16))
    (String (byte (N.shiftr val 8))
      (String (byte val) EmptyString)).

(** The six-bit groups of [val] selected by [>>k & 0x3F]. *)
Definition sextet (val : N) (k : N) : ascii :=
  encodeChar (N.land (N.shiftr val k) 63).

(** [Encode]: full groups of three bytes, then the remainder with padding. *)
Fixpoint EncodeToString (src : string) : string :=
  match src with
  | EmptyString => EmptyString
  | String a EmptyString =>
      let val := N.shiftl (N_of_ascii a) 16 in
      String (sextet val 18) (String (sextet val 12)
        (String padChar (String padChar EmptyString)))
  | String a (String b EmptyString) =>
      let val := N.lor (N.shiftl (N_of_ascii a) 16) (N.shiftl (N_of_ascii b) 8) in
      String (sextet val 18) (String (sextet val 12)
        (String (sextet val 6) (String padChar EmptyString)))
  | String a (String b (String c rest)) =>
      let val := N.lor (N.lor (N.shiftl (N_of_ascii a) 16)
                              (N.shiftl (N_of_ascii b) 8)) (N_of_ascii c) in
      String (sextet val 18) (String (sextet val 12)
        (String (sextet val 6) (String (sextet val 0) (EncodeToString rest))))
  end.

Definition isNL (c : ascii) : bool :=
  Ascii.eqb c "010"%char || Ascii.eqb c "013"%char.

(** [for si < len(src) && (src[si] == '\n' || src[si] == '\r') { si++ }] *)
Fixpoint skipNL (src : string) (si : Z) : string * Z :=
  match src with
  | EmptyString => (src, si)
  | String c rest => if isNL c then skipNL rest (si + 1)%Z else (src, si)
  end.

(** The end of [decodeQuantum]: the gathered six-bit values [dbuf]
    ([dlen] of them, the others zero) become [dlen - 1] bytes.  The
    encoding is not strict, so the unused low bits are not checked. *)
Definition quantumBytes (dbuf : list N) : string :=
  let d := fun k => nth k dbuf 0 in
  let val := N.lor (N.lor (N.lor (N.shiftl (d 0%nat) 18) (N.shiftl (d 1%nat) 12))
                          (N.shiftl (d 2%nat) 6)) (d 3%nat) in
  String.substring 0 (List.length dbuf - 1) (bytesOf val).

(** After the padding of a quantum: skip newlines; what is left is
    trailing garbage, reported together with the bytes of the quantum. *)
Definition afterPadding (dbuf : list N) (src : string) (si : Z)
  : string * option error :=
  match skipNL src si with
  | (EmptyString, _) => (quantumBytes dbuf, None)
  | (String _ _, si') => (quantumBytes dbuf, Some (CorruptInputError si'))
  end.

(** [Decode]: the loop over [decodeQuantum], as one recursion on the
    input.  [si] is the offset of the next input byte and [dbuf] holds the
    six-bit values gathered for the current quantum ([j] is its length).
    The result is the bytes decoded so far and the error, if any: Go's
    [dbuf[:n], err].  The 8- and 4-byte fast paths of [Decode] decode
    blocks of alphabet characters to the same bytes and hand anything else
    to [decodeQuantum], so they are not modelled apart. *)
Fixpoint decode (src : string) (si : Z) (dbuf : list N) : string * option error :=
  match src with
  | EmptyString =>
      match dbuf with
      | [] => (EmptyString, None)
      | _ => (EmptyString, Some (CorruptInputError (si - Z.of_nat (List.length dbuf))))
      end
  | String c rest =>
      let si := (si + 1)%Z in
      let out := decodeMap c in
      if negb (out =? 255) then
        if (List.length dbuf =? 3)%nat then
          let r := decode rest si [] in
          (quantumBytes (dbuf ++ [out])%list ++ fst r, snd r)
        else decode rest si (dbuf ++ [out])%list
      else if isNL c then decode rest si dbuf
      else if negb (Ascii.eqb c padChar) then
        (EmptyString, Some (CorruptInputError (si - 1)))
      else
        match List.length dbuf with
        | 0%nat | 1%nat =>
            (* incorrect padding *)
            (EmptyString, Some (CorruptInputError (si - 1)))
        | 2%nat =>
            (* "==" is expected, the first "=" is already consumed *)
            match skipNL rest si with
            | (EmptyString, si') =>
                (* not enough padding *)
                (EmptyString, Some (CorruptInputError si'))
            | (String c' rest', si') =>
                if negb (Ascii.eqb c' padChar) then
                  (EmptyString, Some (CorruptInputError (si' - 1)))
                else afterPadding dbuf rest' (si' + 1)
            end
        | _ => afterPadding dbuf rest si
        end
  end.

(** [StdEncoding.DecodeString]: on malformed input it returns the
    partially decoded data and a [CorruptInputError]. *)
Definition DecodeString (s : string) : string * option error :=
  decode s 0 [].

End Base64.

(* ================================================================= *)
(** * strings *)

Module Strings.

Definition mapBytes (f : ascii -> ascii) (s : string) : string :=
  string_of_list_ascii (List.map f (list_ascii_of_string s)).

Definition allBytes (f : ascii -> bool) (s : string) : bool :=
  forallb f (list_ascii_of_string s).

(** [c < utf8.RuneSelf] *)
Definition isASCIIByte (c : ascii) : bool := N_of_ascii c <? 128.

(** ['A' <= c && c <= 'Z'] *)
Definition isUpperByte (c : ascii) : bool :=
  (65 <=? N_of_ascii c) && (N_of_ascii c <=? 90).

(** [c += 'a' - 'A'] on upper-case letters *)
Definition lowerByte (c : ascii) : ascii :=
  if isUpperByte c then ascii_of_N (N_of_ascii c + 32) else c.

(** [strings.ToLower].  ASCII-only strings take the byte loop; any other
    string goes through [strings.Map(unicode.ToLower, s)], which is given
    by the caller as [unicodeLower]. *)
Definition ToLower (unicodeLower : string -> string) (s : string) : string :=
  if allBytes isASCIIByte s then
    if negb (allBytes (fun c => negb (isUpperByte c)) s) then mapBytes lowerByte s
    else s
  else unicodeLower s.

(** [strings.HasPrefix(s, prefix)] *)
Definition HasPrefix (s prefix : string) : bool := String.prefix prefix s.

(** [strings.Join(elems, " ")] *)
Definition Join (elems : list string) (sep : string) : string :=
  String.concat sep elems.

End Strings.

(* ================================================================= *)
(** * crypto, crypto/rsa, crypto/ecdsa, crypto/ed25519 *)

Module crypto.

(** [crypto.Hash] is an unsigned integer. *)
Definition Hash : Type := N.

Definition MD4 : Hash := 1.
Definition MD5 : Hash := 2.
Definition SHA224 : Hash := 4.
Definition SHA256 : Hash := 5.
Definition SHA384 : Hash := 6.
Definition SHA512 : Hash := 7.
Definition MD5SHA1 : Hash := 8.
Definition RIPEMD160 : Hash := 9.
Definition SHA3_224 : Hash := 10.
Definition SHA3_256 : Hash := 11.
Definition SHA3_384 : Hash := 12.
Definition SHA3_512 : Hash := 13.
Definition SHA512_224 : Hash := 14.
Definition SHA512_256 : Hash := 15.
Definition BLAKE2s_256 : Hash := 16.
Definition BLAKE2b_256 : Hash := 17.
Definition BLAKE2b_384 : Hash := 18.
Definition BLAKE2b_512 : Hash := 19.

(** [Hash.String] *)
Definition Hash_String (h : Hash) : string :=
  match h with
  | 1 => "MD4"
  | 2 => "MD5"
  | 3 => "SHA-1"
  | 4 => "SHA-224"
  | 5 => "SHA-256"
  | 6 => "SHA-384"
  | 7 => "SHA-512"
  | 8 => "MD5+SHA1"
  | 9 => "RIPEMD-160"
  | 10 => "SHA3-224"
  | 11 => "SHA3-256"
  | 12 => "SHA3-384"
  | 13 => "SHA3-512"
  | 14 => "SHA-512/224"
  | 15 => "SHA-512/256"
  | 16 => "BLAKE2s-256"
  | 17 => "BLAKE2b-256"
  | 18 => "BLAKE2b-384"
  | 19 => "BLAKE2b-512"
  | _ => "unknown hash value " ++ FormatInt (Z.of_N h)
  end.

(** [crypto.PublicKey] is [any]; the dynamic types the code tells apart. *)
Inductive PublicKey : Type :=
| rsa_PublicKey (n : Z) (e : Z)                    (* *rsa.PublicKey *)
| ecdsa_PublicKey (curve : string) (x y : Z)       (* *ecdsa.PublicKey *)
| ed25519_PublicKey (key : string)                 (* ed25519.PublicKey *)
| other_PublicKey (dynamicType : string).          (* anything else *)

(** [rsa.PSSOptions] *)
Record PSSOptions : Type := { SaltLength : Z; PSSHash : Hash }.

(** [crypto.SignerOpts]: an interface with the method [HashFunc]. *)
Inductive SignerOpts : Type :=
| nilOpts                                  (* the nil interface value *)
| hashOpts (h : Hash)                      (* a crypto.Hash *)
| pssOpts (o : option PSSOptions)          (* a *rsa.PSSOptions, [None] when nil *)
| otherOpts (dynamicType : string) (h : Hash).  (* any other implementation *)

(** [opts.HashFunc()]; [None] is the nil-dereference panic. *)
Definition HashFunc (opts : SignerOpts) : option Hash :=
  match opts with
  | nilOpts => None
  | hashOpts h => Some h
  | pssOpts None => None
  | pssOpts (Some o) => Some (PSSHash o)
  | otherOpts _ h => Some h
  end.

(** The type assertion of [opts] to a pointer to [rsa.PSSOptions]. *)
Definition isPSSOptions (opts : SignerOpts) : bool :=
  match opts with
  | pssOpts _ => true
  | _ => false
  end.

End crypto.

(* ================================================================= *)
(** * os/exec *)

Module exec.

Record Cmd : Type := { Path : string; Args : list string; Err : option error }.

(** [Cmd.String] *)
Definition String (c : Cmd) : string :=
  match Err c with
  | Some _ =>
      (* failed to resolve path; report the original requested path (plus args) *)
      Strings.Join (Args c) " "
  | None =>
      (* report the exact executable path (plus args) *)
      fold_left (fun b a => b ++ " " ++ a) (tl (Args c)) (Path c)
  end.

End exec.

(* ================================================================= *)
(** * go.step.sm/crypto/pemutil and io *)

Module pemutil.

(** [pemutil.Options] is a functional option; the code only passes the
    options on, so an option is known by a description. *)
Inductive Options : Type := option_ (descr : string).

End pemutil.

(** Go's built-in [append(s, xs...)]. *)
Definition append {A : Type} (s : list A) (xs : list A) : list A := (s ++ xs)%list.

(** [io.Reader]: the bytes still to be read, or nil. *)
Inductive Reader : Type :=
| nilReader
| reader (pending : string).

(* ================================================================= *)
(** * Signers, the heap and the outside world *)

(** A [*kmsSigner] is an address in the heap of signers. *)
Definition ptr : Type := nat.

(** [crypto.Signer]: the subprocess signer, or any other implementation
    (a private key read from a file), which answers [Public()] with its
    own key. *)
Inductive Signer : Type :=
| kmsSignerPtr (p : ptr)
| localSigner (dynamicType : string) (pub : crypto.PublicKey).

(** The [interface{}] value [pemutil.Read] returns. *)
Inductive any : Type :=
| anySigner (sig : Signer)               (* it implements crypto.Signer *)
| anyOther (dynamicType : string).       (* a certificate, a public key, nil, ... *)

(** Calls that leave the process. *)
Inductive Event : Type :=
| LookPathCall (name : string)                            (* plugin.LookPath *)
| ReadCall (name : string) (opts : list pemutil.Options)  (* pemutil.Read *)
| StdinPipeCall (cmd : exec.Cmd)                          (* cmd.StdinPipe *)
| StartCall (cmd : exec.Cmd) (stdin : string).            (* a child process is started *)

(** What lies outside [cryptoutil.go]: Go's formatting and Unicode tables,
    and the answers of the file system, the parser and the plugin.  An
    answer may depend on the calls made so far. *)
Class Runtime : Type := {
  (** the verb [%q] of [fmt] on a string ([strconv.Quote]) *)
  fmt_q : string -> string;
  (** [strings.Map(unicode.ToLower, s)], reached for non-ASCII [s] *)
  unicode_ToLower : string -> string;
  (** [plugin.LookPath(name)] *)
  plugin_LookPath : list Event -> string -> string * option error;
  (** [pemutil.Read(name, opts...)] *)
  pemutil_Read : list Event -> string -> list pemutil.Options -> any * option error;
  (** [pemutil.Parse(b)] *)
  pemutil_Parse : string -> crypto.PublicKey * option error;
  (** the path [exec.Command(name, ...)] keeps for [name] and the error of
      its [LookPath], if it had to search and failed *)
  exec_LookPath : list Event -> string -> string * option error;
  (** [os.Pipe()] inside [cmd.StdinPipe] *)
  os_Pipe : list Event -> exec.Cmd -> option error;
  (** the started child, fed [stdin] until end of file: the standard output
      [cmd.Output] captures and its error ([ExitError] with the captured
      standard error when the child ran and did not exit with success) *)
  child : list Event -> exec.Cmd -> string -> string * option error
}.

Module Cryptoutil.

(** [type kmsSigner struct] *)
Record kmsSigner : Type := {
  PublicKey : crypto.PublicKey;
  name : string;
  kms : string;
  key : string
}.

Record State : Type := { heap : list kmsSigner; log : list Event }.

(** The heap of [st'] is the heap of [st] with more signers at its end. *)
Definition extends (st st' : State) : Prop :=
  exists more : list kmsSigner, heap st' = (heap st ++ more)%list.

Inductive Outcome (A : Type) : Type :=
| Returned (a : A)
| Panicked.
Arguments Returned {A} a.
Arguments Panicked {A}.

Definition M (A : Type) : Type := State -> Outcome A * State.

Definition ret {A} (a : A) : M A := fun st => (Returned a, st).

Definition bind {A B} (c : M A) (k : A -> M B) : M B :=
  fun st =>
    match c st with
    | (Returned a, st') => k a st'
    | (Panicked, st') => (Panicked, st')
    end.

Definition panic {A} : M A := fun st => (Panicked, st).

Definition lift {A} (o : Outcome A) : M A := fun st => (o, st).

Declare Scope go_scope.
Delimit Scope go_scope with go.
Notation "x <- c ;; k" := (bind c (fun x => k))
  (at level 61, c at next level, right associativity) : go_scope.
Local Open Scope go_scope.

(** The calls made so far. *)
Definition history : M (list Event) := fun st => (Returned (log st), st).

Definition emit (e : Event) : M unit :=
  fun st => (Returned tt, {| heap := heap st; log := append (log st) [e] |}).

(** [*s]; an address that holds no signer behaves as the nil pointer. *)
Definition deref (s : ptr) : M kmsSigner :=
  fun st =>
    match nth_error (heap st) s with
    | Some ks => (Returned ks, st)
    | None => (Panicked, st)
    end.

(** [&kmsSigner{...}] *)
Definition alloc (ks : kmsSigner) : M ptr :=
  fun st => (Returned (List.length (heap st)),
             {| heap := append (heap st) [ks]; log := log st |}).

Section Code.
Context {rt : Runtime}.

Definition LookPath (name : string) : M (string * option error) :=
  h <- history ;; _ <- emit (LookPathCall name) ;; ret (plugin_LookPath h name).

Definition Read (name : string) (opts : list pemutil.Options)
  : M (any * option error) :=
  h <- history ;; _ <- emit (ReadCall name opts) ;; ret (pemutil_Read h name opts).

(** [exec.Command(name, args...)] *)
Definition Command (name : string) (args : list string) : M exec.Cmd :=
  h <- history ;;
  ret {| exec.Path := fst (exec_LookPath h name);
         exec.Args := name :: args;
         exec.Err := snd (exec_LookPath h name) |}.

(** [cmd.StdinPipe()] *)
Definition StdinPipe (cmd : exec.Cmd) : M (option error) :=
  h <- history ;; _ <- emit (StdinPipeCall cmd) ;; ret (os_Pipe h cmd).

(** [cmd.Output()], the child reading [stdin].  A command whose path
    did not resolve fails in [Start] before any child exists. *)
Definition Output (cmd : exec.Cmd) (stdin : string) : M (string * option error) :=
  match exec.Err cmd with
  | Some err => ret (EmptyString, Some err)
  | None =>
      h <- history ;; _ <- emit (StartCall cmd stdin) ;; ret (child h cmd stdin)
  end.

(** [IsKMSSigner] *)
Definition IsKMSSigner (signer : Signer) : bool :=
  match signer with
  | kmsSignerPtr _ => true
  | localSigner _ _ => false
  end.

(** [(s *kmsSigner) Public] *)
Definition Public (s : ptr) : M crypto.PublicKey :=
  ks <- deref s ;; ret (PublicKey ks).

(** [signer.Public()] on the interface value *)
Definition Signer_Public (signer : Signer) : M crypto.PublicKey :=
  match signer with
  | kmsSignerPtr s => Public s
  | localSigner _ pub => ret pub
  end.

(** [IsX509Signer] *)
Definition IsX509Signer (signer : Signer) : M bool :=
  pub <- Signer_Public signer ;;
  let switch :=
    match pub with
    | crypto.ecdsa_PublicKey _ _ _
    | crypto.rsa_PublicKey _ _
    | crypto.ed25519_PublicKey _ => true
    | crypto.other_PublicKey _ => false
    end in
  match signer with
  | kmsSignerPtr p =>
      ks <- deref p ;;
      if Strings.HasPrefix (Strings.ToLower unicode_ToLower (kms ks)) "sshagentkms:" then
        ret match pub with
            | crypto.ed25519_PublicKey _ => true
            | _ => false
            end
      else ret switch
  | localSigner _ _ => ret switch
  end.

(** [exitError] *)
Definition exitError (cmd : exec.Cmd) (err : error) : error :=
  match err with
  | ExitError _ Stderr =>
      errorString ("command " ++ fmt_q (exec.String cmd) ++ " failed with:"
                     ++ String "010" Stderr)
  | _ =>
      wrapError ("command " ++ fmt_q (exec.String cmd) ++ " failed with: "
                   ++ Error err) err
  end.

(** [newKMSSigner] *)
Definition newKMSSigner (kms key : string) : M (option Signer * option error) :=
  r <- LookPath "kms" ;;
  match snd r with
  | Some err => ret (None, Some err)
  | None =>
      let name := fst r in
      let args := ["key"] in
      let args := if negb (kms =? "")%string then append args ["--kms"; kms] else args in
      let args := append args [key] in
      (* Get public key *)
      cmd <- Command name args ;;
      out <- Output cmd EmptyString ;;
      match snd out with
      | Some err => ret (None, Some (exitError cmd err))
      | None =>
          match pemutil_Parse (fst out) with
          | (_, Some err) => ret (None, Some err)
          | (pub, None) =>
              s <- alloc {| PublicKey := pub; name := name; kms := kms; key := key |} ;;
              ret (Some (kmsSignerPtr s), None)
          end
      end
  end.

(** [CreateSigner] *)
Definition CreateSigner (kms name : string) (opts : list pemutil.Options)
  : M (option Signer * option error) :=
  if (kms =? "")%string then
    r <- Read name opts ;;
    match snd r with
    | Some err => ret (None, Some err)
    | None =>
        match fst r with
        | anySigner sig => ret (Some sig, None)
        | anyOther _ =>
            ret (None, Some (errorString
              ("file " ++ name ++ " does not contain a valid private key")))
        end
    end
  else newKMSSigner kms name.

(** The first part of [Sign], up to [args = append(args, s.key)]: the
    argument list, or the error returned before any command exists, or
    the panic of [opts.HashFunc()] on a nil [opts]. *)
Definition signArgs (ks : kmsSigner) (opts : crypto.SignerOpts)
  : Outcome (list string + error) :=
  let args := ["sign"; "--format"; "base64"] in
  let args := if negb (kms ks =? "")%string then append args ["--kms"; kms ks] else args in
  let r :=
    match PublicKey ks with
    | crypto.rsa_PublicKey _ _ =>
        let args := if crypto.isPSSOptions opts then append args ["--pss"] else args in
        match crypto.HashFunc opts with
        | None => Panicked
        | Some h =>
            if h =? crypto.SHA256 then Returned (inl (append args ["--alg"; "SHA256"]))
            else if h =? crypto.SHA384 then Returned (inl (append args ["--alg"; "SHA384"]))
            else if h =? crypto.SHA512 then Returned (inl (append args ["--alg"; "SHA512"]))
            else Returned (inr (errorString
                   ("unsupported hash function " ++ fmt_q (crypto.Hash_String h))))
        end
    | _ => Returned (inl args)
    end in
  match r with
  | Returned (inl args) => Returned (inl (append args [key ks]))
  | _ => r
  end.

(** [(s *kmsSigner) Sign].  The goroutine writes [digest] to the pipe
    and closes it: the child reads [digest] on its standard input. *)
Definition Sign (s : ptr) (rand : Reader) (digest : string)
           (opts : crypto.SignerOpts) : M (string * option error) :=
  ks <- deref s ;;
  r <- lift (signArgs ks opts) ;;
  match r with
  | inr err => ret (EmptyString, Some err)
  | inl args =>
      cmd <- Command (name ks) args ;;
      perr <- StdinPipe cmd ;;
      match perr with
      | Some err => ret (EmptyString, Some err)
      | None =>
          out <- Output cmd digest ;;
          match snd out with
          | Some err => ret (EmptyString, Some (exitError cmd err))
          | None => ret (Base64.DecodeString (fst out))
          end
      end
  end.

(** A call of one of the package's functions or methods. *)
Inductive Call : Type :=
| callCreateSigner (kms name : string) (opts : list pemutil.Options)
| callIsKMSSigner (signer : Signer)
| callIsX509Signer (signer : Signer)
| callPublic (s : ptr)
| callSign (s : ptr) (rand : Reader) (digest : string) (opts : crypto.SignerOpts).

(** The state a call leaves behind, whether it returns or panics. *)
Definition after (c : Call) (st : State) : State :=
  match c with
  | callCreateSigner kms name opts => snd (CreateSigner kms name opts st)
  | callIsKMSSigner signer => snd (ret (IsKMSSigner signer) st)
  | callIsX509Signer signer => snd (IsX509Signer signer st)
  | callPublic s => snd (Public s st)
  | callSign s rand digest opts => snd (Sign s rand digest opts st)
  end.

(** A program is a sequence of calls. *)
Definition afterAll (cs : list Call) (st : State) : State :=
  fold_left (fun st c => after c st) cs st.

(** The command [Sign] makes from an argument list, given the calls made
    so far. *)
Definition signCommand (ks : kmsSigner) (args : list string) (h : list Event)
  : exec.Cmd :=
  {| exec.Path := fst (exec_LookPath h (name ks));
     exec.Args := name ks :: args;
     exec.Err := snd (exec_LookPath h (name ks)) |}.

End Code.

End Cryptoutil.

(* ================================================================= *)
(** * Vocabulary of the specification *)

Module Spec.

(** [sub] occurs in [s]. *)
Definition contains (sub s : string) : Prop :=
  exists pre post : string, s = pre ++ sub ++ post.

(** [s] between double quotes: what [%q] prints for a text in which
    nothing needs escaping. *)
Definition quoted (s : string) : string :=
  String "034" (s ++ String "034" EmptyString).

Inductive KeyType : Type := RSA | ECDSA | Ed25519 | OtherKey.

Definition keyType (pub : crypto.PublicKey) : KeyType :=
  match pub with
  | crypto.rsa_PublicKey _ _ => RSA
  | crypto.ecdsa_PublicKey _ _ _ => ECDSA
  | crypto.ed25519_PublicKey _ => Ed25519
  | crypto.other_PublicKey _ => OtherKey
  end.

(** The value of the flag [--alg] for a hash: SHA-256 is [SHA256], SHA-384
    is [SHA384], SHA-512 is [SHA512]. *)
Definition algName (h : crypto.Hash) : option string :=
  if h =? crypto.SHA256 then Some "SHA256"
  else if h =? crypto.SHA384 then Some "SHA384"
  else if h =? crypto.SHA512 then Some "SHA512"
  else None.

(** [["--kms", providerId]] iff [providerId] is not empty. *)
Definition kmsFlag (providerId : string) : list string :=
  if (providerId =? "")%string then [] else ["--kms"; providerId].

(** [["--pss"]] iff the options ask for PSS padding. *)
Definition pssFlag (opts : crypto.SignerOpts) : list string :=
  if crypto.isPSSOptions opts then ["--pss"] else [].

(** The ordering the property list states for PSS requests: [--pss] stands
    after the [--alg] flag, after the [--kms] flag when there is a provider,
    and before the key identifier. *)
Definition pssAfterFlags (providerId keyId : string) (args : list string) : Prop :=
  exists pre post : list string,
    args = (pre ++ "--pss" :: post)%list
    /\ In "--alg" pre
    /\ (providerId <> EmptyString -> In "--kms" pre)
    /\ In keyId post.

(** The keys Go's crypto/x509 signs certificates with. *)
Definition x509Key (t : KeyType) : Prop := t = ECDSA \/ t = RSA \/ t = Ed25519.

(** The ssh-agent provider scheme, compared without regard to case. *)
Definition sshAgentProvider {rt : Runtime} (providerId : string) : bool :=
  Strings.HasPrefix (Strings.ToLower unicode_ToLower providerId) "sshagentkms:".

(** The events a computation added to the log. *)
Definition newEvents (before after : Cryptoutil.State) : list Event :=
  skipn (List.length (Cryptoutil.log before)) (Cryptoutil.log after).

(** A child process is started. *)
Definition isStart (e : Event) : bool :=
  match e with StartCall _ _ => true | _ => false end.

(** The plugin executable is looked up. *)
Definition isLookPath (e : Event) : bool :=
  match e with LookPathCall _ => true | _ => false end.

End Spec.

(* ================================================================= *)
(** * Sample worlds, to run the code on *)

Module Sample.

Import Cryptoutil.

Definition pluginPath : string := "/usr/local/bin/step-kms-plugin".

(** A world whose plugin prints a key for [key] and answers [sign] with
    [reply stdin]. *)
Definition world (reply : string -> string * option error) : Runtime :=
  {| fmt_q := Spec.quoted;
     unicode_ToLower := fun s => s;
     plugin_LookPath := fun _ _ => (pluginPath, None);
     pemutil_Read := fun _ name _ =>
       if (name =? "key.pem")%string then
         (anySigner (localSigner "ed25519.PrivateKey" (crypto.ed25519_PublicKey "pub")), None)
       else if (name =? "cert.pem")%string then (anyOther "x509.Certificate", None)
       else (anyOther "nil", Some (foreignError "no such file"));
     pemutil_Parse := fun b => (crypto.ed25519_PublicKey b, None);
     exec_LookPath := fun _ name => (name, None);
     os_Pipe := fun _ _ => None;
     child := fun _ cmd stdin =>
       match exec.Args cmd with
       | _ :: "sign" :: _ => reply stdin
       | _ => ("PEM", None)
       end |}.

(** The plugin echoes the base64 of its standard input. *)
Definition echo : Runtime := world (fun stdin => (Base64.EncodeToString stdin, None)).

(** The plugin fails and complains on its standard error. *)
Definition failing : Runtime :=
  world (fun _ => (EmptyString, Some (ExitError "exit status 1" "no such key"))).


Definition rsaSigner : kmsSigner :=
  {| PublicKey := crypto.rsa_PublicKey 3233 17; name := pluginPath;
     kms := "pkcs11:module"; key := "id=1" |}.

Definition edSigner : kmsSigner :=
  {| PublicKey := crypto.ed25519_PublicKey "pub"; name := pluginPath;
     kms := EmptyString; key := "key.pem" |}.

Definition agentSigner : kmsSigner :=
  {| PublicKey := crypto.rsa_PublicKey 3233 17; name := pluginPath;
     kms := "SSHAgentKMS:"; key := "id" |}.

(** A heap with the three signers at addresses 0, 1 and 2. *)
Definition st0 : State := {| heap := [rsaSigner; edSigner; agentSigner]; log := [] |}.

Definition pss256 : crypto.SignerOpts :=
  crypto.pssOpts (Some {| crypto.SaltLength := 0; crypto.PSSHash := crypto.SHA256 |}).

End Sample.

(* ================================================================= *)
(** * errors *)

Module errors.

(** [errors.Unwrap] *)
Definition Unwrap (err : error) : option error :=
  match err with
  | wrapError _ inner => Some inner
  | _ => None
  end.

(** The type assertion of an error to a pointer to [exec.ExitError]. *)
Definition isExitError (err : error) : bool :=
  match err with
  | ExitError _ _ => true
  | _ => false
  end.

End errors.

(* ================================================================= *)
(** * The command that fetches the public key *)

Module Fetch.

(** The arguments [newKMSSigner] gives the plugin. *)
Definition keyArgs (providerId keyId : string) : list string :=
  ("key" :: Spec.kmsFlag providerId ++ [keyId])%list.

(** The command [newKMSSigner] makes for the plugin at [name], given the
    calls made so far. *)
Definition keyCommand {rt : Runtime} (name providerId keyId : string)
           (h : list Event) : exec.Cmd :=
  {| exec.Path := fst (exec_LookPath h name);
     exec.Args := name :: keyArgs providerId keyId;
     exec.Err := snd (exec_LookPath h name) |}.

(** The number of children started among some events. *)
Definition children (es : list Event) : nat :=
  List.length (filter Spec.isStart es).

End Fetch.

(* ================================================================= *)
(** * regexp, as far as [cmd/step/main.go] uses it *)

Module regexp.

(** The syntax of the one pattern of the program: literal bytes and the
    lazy [.*?], whose dot matches anything but a newline.  The bytes [<],
    [>] and newline never occur inside a multi-byte character, so matching
    byte by byte finds the matches Go finds character by character. *)
Inductive node : Type :=
| lit (c : ascii)
| lazyDotStar.

Definition Regexp : Type := list node.

(** The length of the match of [re] at the start of the text which a
    backtracking matcher finds first; the lazy star tries the rest of the
    pattern before it takes one more byte. *)
Fixpoint matchHere (re : Regexp) : string -> option nat :=
  match re with
  | [] => fun _ => Some 0%nat
  | lit c :: re' =>
      fun s =>
        match s with
        | String c' s' =>
            if Ascii.eqb c' c then option_map S (matchHere re' s') else None
        | EmptyString => None
        end
  | lazyDotStar :: re' =>
      fix lazy (s : string) : option nat :=
        match matchHere re' s with
        | Some n => Some n
        | None =>
            match s with
            | String c' s' =>
                if Ascii.eqb c' "010" then None else option_map S (lazy s')
            | EmptyString => None
            end
        end
  end.

(** The leftmost match. *)
Fixpoint find (re : Regexp) (s : string) : option string :=
  match matchHere re s with
  | Some n => Some (String.substring 0 n s)
  | None =>
      match s with
      | String _ s' => find re s'
      | EmptyString => None
      end
  end.

(** [re.FindString(s)]: the text of the leftmost match, or the empty string. *)
Definition FindString (re : Regexp) (s : string) : string :=
  match find re s with
  | Some m => m
  | None => EmptyString
  end.

End regexp.

(* ================================================================= *)
(** * reflect, as far as [cmd/step/main.go] uses it *)

Module reflect.

(** A field of a struct: a string, or a value of another type. *)
Inductive Field : Type :=
| stringField (s : string)
| otherField (typeName : string).

(** [reflect.Value]: the zero Value, a nil pointer, a pointer to a value, a
    struct with its fields by name, or a value of another kind. *)
Inductive Value : Type :=
| zeroValue
| nilPointer
| pointer (elem : Value)
| struct (fields : list (string * Field))
| other (typeName : string).

Fixpoint lookup (name : string) (fields : list (string * Field)) : option Field :=
  match fields with
  | [] => None
  | (n, f) :: rest => if (n =? name)%string then Some f else lookup name rest
  end.

(** [v.FieldByName(name).String()]: [None] is the panic of [FieldByName] on
    a value that is not a struct; a missing field is the zero Value, whose
    [String()] is ["<invalid Value>"]; a field that is not a string prints
    its type. *)
Definition FieldByName_String (v : Value) (name : string) : option string :=
  match v with
  | struct fields =>
      Some match lookup name fields with
           | Some (stringField s) => s
           | Some (otherField typeName) => "<" ++ typeName ++ " Value>"
           | None => "<invalid Value>"
           end
  | _ => None
  end.

End reflect.

(* ================================================================= *)
(** * cmd/step/main.go *)

Module Main.

(** A byte that is neither [>] nor a newline: what the lazy [.*?] of the
    placeholder pattern steps over. *)
Definition inside (c : ascii) : bool :=
  negb (Ascii.eqb c ">") && negb (Ascii.eqb c "010").

(** [func flagValue(f cli.Flag) reflect.Value], on [reflect.ValueOf(f)]:
    while the kind is [reflect.Ptr] the value is replaced by
    [reflect.Indirect] of it, which for a nil pointer is the zero Value. *)
Fixpoint flagValue (fv : reflect.Value) : reflect.Value :=
  match fv with
  | reflect.pointer elem => flagValue elem
  | reflect.nilPointer => reflect.zeroValue
  | _ => fv
  end.

(** [var placeholderString = regexp.MustCompile(`<.*?>`)] *)
Definition placeholderString : regexp.Regexp :=
  [regexp.lit "<"; regexp.lazyDotStar; regexp.lit ">"].

(** [func stringifyFlag(f cli.Flag) string]; [FlagNamePrefixer] is the
    function the program stored in [cli.FlagNamePrefixer]. *)
Definition stringifyFlag (FlagNamePrefixer : string -> string -> string)
           (f : reflect.Value) : Cryptoutil.Outcome string :=
  let fv := flagValue f in
  match reflect.FieldByName_String fv "Usage" with
  | None => Cryptoutil.Panicked
  | Some usage =>
      let placeholder := regexp.FindString placeholderString usage in
      let placeholder :=
        if (placeholder =? "")%string then "<value>" else placeholder in
      match reflect.FieldByName_String fv "Name" with
      | None => Cryptoutil.Panicked
      | Some name =>
          Cryptoutil.Returned
            (FlagNamePrefixer name placeholder ++ String "009" usage)
      end
  end.

End Main.

(* ================================================================= *)
(** * More sample worlds and a sample flag *)

Module Worlds.

(** A world in which the lookup of the plugin, the resolution of its path,
    the pipe, the child that prints the key and the parser fail as told;
    the child that signs prints the base64 of its input and a newline. *)
Definition faulty (lookErr execErr pipeErr : option error)
           (keyReply : string * option error) (parseErr : option error) : Runtime :=
  {| fmt_q := Spec.quoted;
     unicode_ToLower := fun s => s;
     plugin_LookPath := fun _ _ => (Sample.pluginPath, lookErr);
     pemutil_Read := fun _ _ _ => (anyOther "nil", Some (foreignError "no such file"));
     pemutil_Parse := fun b => (crypto.ed25519_PublicKey b, parseErr);
     exec_LookPath := fun _ name => (name, execErr);
     os_Pipe := fun _ _ => pipeErr;
     child := fun _ cmd stdin =>
       match exec.Args cmd with
       | _ :: "sign" :: _ => (Base64.EncodeToString stdin ++ String "010" EmptyString, None)
       | _ => keyReply
       end |}.

(** Nothing fails. *)
Definition sound : Runtime := faulty None None None ("PEM", None) None.

(** A flag as the command-line library declares them, behind a pointer. *)
Definition caURL : reflect.Value :=
  reflect.pointer
    (reflect.struct
       [("Name", reflect.stringField "ca-url");
        ("Usage", reflect.stringField "The <uri> of the CA, see <other>");
        ("Hidden", reflect.otherField "bool")]).

(** A prefixer: two dashes, the name, an equals sign, the placeholder. *)
Definition prefixer (name placeholder : string) : string :=
  "--" ++ name ++ "=" ++ placeholder.

End Worlds.

(* ================================================================= *)
(** * Facts about base64 *)

Module Base64Facts.
Import Base64.

Lemma land_shiftl_low (a b n : N) : b < 2 ^ n -> N.land (N.shiftl a n) b = 0.
Proof.
  intros Hb. apply N.bits_inj. intros m.
  rewrite N.land_spec, N.bits_0.
  destruct (N.lt_ge_cases m n) as [Hm | Hm].
  - now rewrite N.shiftl_spec_low.
  - rewrite <- (N.mod_small b (2 ^ n)) by exact Hb.
    rewrite N.mod_pow2_bits_high by exact Hm. apply andb_false_r.
Qed.

Lemma lor_shiftl_add (a b n : N) : b < 2 ^ n -> N.lor (N.shiftl a n) b = a * 2 ^ n + b.
Proof.
  intros Hb. rewrite <- N.lxor_lor by now apply land_shiftl_low.
  rewrite <- N.add_nocarry_lxor by now apply land_shiftl_low.
  now rewrite N.shiftl_mul_pow2.
Qed.

Lemma lor_mul_add (a b n : N) : b < 2 ^ n -> N.lor (a * 2 ^ n) b = a * 2 ^ n + b.
Proof.
  intros Hb. rewrite <- !N.shiftl_mul_pow2.
  rewrite lor_shiftl_add by exact Hb. now rewrite N.shiftl_mul_pow2.
Qed.

Lemma land_63 (x : N) : N.land x 63 = x mod 64.
Proof. change 63 with (N.ones 6). now rewrite N.land_ones. Qed.

Lemma land_255 (x : N) : N.land x 255 = x mod 256.
Proof. change 255 with (N.ones 8). now rewrite N.land_ones. Qed.

Lemma decodeMap_encodeChar (i : N) : i < 64 -> decodeMap (encodeChar i) = i.
Proof.
  intros Hi.
  assert (H : forallb (fun k => decodeMap (encodeChar k) =? k)
                (List.map N.of_nat (seq 0 64)) = true) by (vm_compute; reflexivity).
  rewrite forallb_forall in H.
  apply N.eqb_eq, H, in_map_iff. exists (N.to_nat i). split.
  - apply N2Nat.id.
  - apply in_seq. lia.
Qed.

Ltac divmod := zify; Z.to_euclidean_division_equations; lia.

Lemma pack_sextets (d0 d1 d2 d3 : N) :
  d1 < 64 -> d2 < 64 -> d3 < 64 ->
  N.lor (N.lor (N.lor (N.shiftl d0 18) (N.shiftl d1 12)) (N.shiftl d2 6)) d3
  = d0 * 262144 + d1 * 4096 + d2 * 64 + d3.
Proof.
  intros H1 H2 H3.
  rewrite (N.shiftl_mul_pow2 d1), (N.shiftl_mul_pow2 d2).
  rewrite lor_shiftl_add by (change (2 ^ 18) with 262144; change (2 ^ 12) with 4096; lia).
  replace (d0 * 2 ^ 18 + d1 * 2 ^ 12) with ((d0 * 64 + d1) * 2 ^ 12)
    by (change (2 ^ 18) with 262144; change (2 ^ 12) with 4096; lia).
  rewrite lor_mul_add by (change (2 ^ 12) with 4096; change (2 ^ 6) with 64; lia).
  replace ((d0 * 64 + d1) * 2 ^ 12 + d2 * 2 ^ 6) with ((d0 * 4096 + d1 * 64 + d2) * 2 ^ 6)
    by (change (2 ^ 12) with 4096; change (2 ^ 6) with 64; lia).
  rewrite lor_mul_add by (change (2 ^ 6) with 64; lia).
  change (2 ^ 6) with 64. lia.
Qed.

Lemma pack_bytes (a b c : N) :
  b < 256 -> c < 256 ->
  N.lor (N.lor (N.shiftl a 16) (N.shiftl b 8)) c = a * 65536 + b * 256 + c.
Proof.
  intros Hb Hc. rewrite (N.shiftl_mul_pow2 b 8).
  rewrite lor_shiftl_add by (change (2 ^ 16) with 65536; change (2 ^ 8) with 256; lia).
  replace (a * 2 ^ 16 + b * 2 ^ 8) with ((a * 256 + b) * 2 ^ 8)
    by (change (2 ^ 16) with 65536; change (2 ^ 8) with 256; lia).
  rewrite lor_mul_add by (change (2 ^ 8) with 256; lia).
  change (2 ^ 8) with 256. lia.
Qed.

Lemma sextet_lt (val k : N) : N.land (N.shiftr val k) 63 < 64.
Proof. rewrite land_63. apply N.mod_lt. discriminate. Qed.

Lemma sextets_val (val : N) :
  val < 16777216 ->
  N.land (N.shiftr val 18) 63 * 262144 + N.land (N.shiftr val 12) 63 * 4096
  + N.land (N.shiftr val 6) 63 * 64 + N.land (N.shiftr val 0) 63 = val.
Proof.
  intros Hv. rewrite !land_63, !N.shiftr_div_pow2.
  change (2 ^ 18) with 262144. change (2 ^ 12) with 4096. change (2 ^ 6) with 64.
  change (2 ^ 0) with 1. divmod.
Qed.

Lemma bytesOf_pack (a b c : ascii) :
  bytesOf (N_of_ascii a * 65536 + N_of_ascii b * 256 + N_of_ascii c)
  = String a (String b (String c EmptyString)).
Proof.
  pose proof (N_ascii_bounded a). pose proof (N_ascii_bounded b).
  pose proof (N_ascii_bounded c).
  unfold bytesOf, byte. rewrite !land_255, !N.shiftr_div_pow2.
  change (2 ^ 16) with 65536. change (2 ^ 8) with 256.
  repeat f_equal.
  - rewrite <- (ascii_N_embedding a) at 2. f_equal. divmod.
  - rewrite <- (ascii_N_embedding b) at 2. f_equal. divmod.
  - rewrite <- (ascii_N_embedding c) at 2. f_equal. divmod.
Qed.

Lemma valid_char (c : ascii) :
  decodeMap c <> 255 -> negb (decodeMap c =? 255) = true.
Proof. intros H. apply negb_true_iff, N.eqb_neq, H. Qed.

Lemma decode_quantum (c0 c1 c2 c3 : ascii) (rest : string) (si : Z) :
  decodeMap c0 <> 255 -> decodeMap c1 <> 255 ->
  decodeMap c2 <> 255 -> decodeMap c3 <> 255 ->
  decode (String c0 (String c1 (String c2 (String c3 rest)))) si []
  = ((quantumBytes [decodeMap c0; decodeMap c1; decodeMap c2; decodeMap c3]
       ++ fst (decode rest (si + 1 + 1 + 1 + 1) []))%string,
     snd (decode rest (si + 1 + 1 + 1 + 1) [])).
Proof.
  intros H0 H1 H2 H3.
  cbn [decode List.length Nat.eqb app].
  rewrite !valid_char by assumption. reflexivity.
Qed.



Lemma decodeMap_sextet (val k : N) :
  decodeMap (sextet val k) = N.land (N.shiftr val k) 63.
Proof. apply decodeMap_encodeChar, sextet_lt. Qed.

Lemma sextet_valid (val k : N) : decodeMap (sextet val k) <> 255.
Proof. rewrite decodeMap_sextet. pose proof (sextet_lt val k). lia. Qed.

Lemma quantum_full (a b c : ascii) :
  let val := N.lor (N.lor (N.shiftl (N_of_ascii a) 16) (N.shiftl (N_of_ascii b) 8))
                   (N_of_ascii c) in
  quantumBytes [decodeMap (sextet val 18); decodeMap (sextet val 12);
                decodeMap (sextet val 6); decodeMap (sextet val 0)]
  = String a (String b (String c EmptyString)).
Proof.
  intros val.
  pose proof (N_ascii_bounded a). pose proof (N_ascii_bounded b).
  pose proof (N_ascii_bounded c).
  assert (Hval : val = N_of_ascii a * 65536 + N_of_ascii b * 256 + N_of_ascii c)
    by (apply pack_bytes; assumption).
  unfold quantumBytes. cbn [nth List.length Nat.sub].
  rewrite !decodeMap_sextet, pack_sextets by apply sextet_lt.
  rewrite sextets_val by lia.
  rewrite Hval, bytesOf_pack. reflexivity.
Qed.

Lemma quantum_two (a b : ascii) :
  let val := N.lor (N.shiftl (N_of_ascii a) 16) (N.shiftl (N_of_ascii b) 8) in
  quantumBytes [decodeMap (sextet val 18); decodeMap (sextet val 12);
                decodeMap (sextet val 6)]
  = String a (String b EmptyString).
Proof.
  intros val.
  pose proof (N_ascii_bounded a) as Ha. pose proof (N_ascii_bounded b) as Hb.
  assert (Hval : val = N_of_ascii a * 65536 + N_of_ascii b * 256).
  { unfold val. rewrite (N.shiftl_mul_pow2 _ 8).
    rewrite lor_shiftl_add by (change (2 ^ 16) with 65536; change (2 ^ 8) with 256; lia).
    reflexivity. }
  unfold quantumBytes. cbn [nth List.length Nat.sub].
  rewrite !decodeMap_sextet, pack_sextets by (try apply sextet_lt; lia).
  rewrite !land_63, !N.shiftr_div_pow2.
  change (2 ^ 18) with 262144. change (2 ^ 12) with 4096. change (2 ^ 6) with 64.
  replace (val / 262144 mod 64 * 262144 + val / 4096 mod 64 * 4096
           + val / 64 mod 64 * 64 + 0)
    with (N_of_ascii a * 65536 + N_of_ascii b * 256 + N_of_ascii zero)
    by (rewrite Hval; change (N_of_ascii zero) with 0; divmod).
  rewrite bytesOf_pack. reflexivity.
Qed.

Lemma quantum_one (a : ascii) :
  let val := N.shiftl (N_of_ascii a) 16 in
  quantumBytes [decodeMap (sextet val 18); decodeMap (sextet val 12)]
  = String a EmptyString.
Proof.
  intros val.
  pose proof (N_ascii_bounded a) as Ha.
  assert (Hval : val = N_of_ascii a * 65536)
    by (unfold val; now rewrite N.shiftl_mul_pow2).
  unfold quantumBytes. cbn [nth List.length Nat.sub].
  rewrite !decodeMap_sextet, pack_sextets by (try apply sextet_lt; lia).
  rewrite !land_63, !N.shiftr_div_pow2.
  change (2 ^ 18) with 262144. change (2 ^ 12) with 4096.
  replace (val / 262144 mod 64 * 262144 + val / 4096 mod 64 * 4096 + 0 * 64 + 0)
    with (N_of_ascii a * 65536 + N_of_ascii zero * 256 + N_of_ascii zero)
    by (rewrite Hval; change (N_of_ascii zero) with 0; divmod).
  rewrite bytesOf_pack. reflexivity.
Qed.



End Base64Facts.

(* ================================================================= *)
(** * The argument list of [Sign] *)

Section SignArgs.
Context {rt : Runtime}.
Import Cryptoutil.

Lemma append_kmsFlag (args : list string) (providerId : string) :
  (if negb (providerId =? "")%string then append args ["--kms"; providerId] else args)
  = (args ++ Spec.kmsFlag providerId)%list.
Proof.
  unfold Spec.kmsFlag, append. destruct (providerId =? "")%string; cbn [negb].
  - now rewrite app_nil_r.
  - reflexivity.
Qed.

Lemma append_pssFlag (args : list string) (opts : crypto.SignerOpts) :
  (if crypto.isPSSOptions opts then append args ["--pss"] else args)
  = (args ++ Spec.pssFlag opts)%list.
Proof.
  unfold Spec.pssFlag, append. destruct (crypto.isPSSOptions opts).
  - reflexivity.
  - now rewrite app_nil_r.
Qed.

(** [signArgs] on an RSA key whose options name a supported hash. *)
Lemma signArgs_rsa (ks : kmsSigner) (opts : crypto.SignerOpts)
      (h : crypto.Hash) (alg : string) :
  Spec.keyType (PublicKey ks) = Spec.RSA ->
  crypto.HashFunc opts = Some h ->
  Spec.algName h = Some alg ->
  signArgs ks opts
  = Returned (inl (["sign"; "--format"; "base64"] ++ Spec.kmsFlag (kms ks)
                     ++ Spec.pssFlag opts ++ ["--alg"; alg] ++ [key ks])%list).
Proof.
  intros Hkey Hh Halg. unfold signArgs.
  destruct (PublicKey ks); try discriminate Hkey.
  rewrite Hh, append_kmsFlag, append_pssFlag.
  unfold Spec.algName in Halg.
  destruct (h =? crypto.SHA256);
    [| destruct (h =? crypto.SHA384); [| destruct (h =? crypto.SHA512)]];
    try discriminate Halg; injection Halg as <-;
    unfold append; now rewrite <- !app_assoc.
Qed.


(** [signArgs] on a key that is not RSA never looks at the options. *)
Lemma signArgs_other (ks : kmsSigner) (opts : crypto.SignerOpts) :
  Spec.keyType (PublicKey ks) <> Spec.RSA ->
  signArgs ks opts
  = Returned (inl (["sign"; "--format"; "base64"] ++ Spec.kmsFlag (kms ks)
                     ++ [key ks])%list).
Proof.
  intros Hkey. unfold signArgs. rewrite append_kmsFlag.
  destruct (PublicKey ks); cbn in Hkey; try congruence;
    unfold append; now rewrite <- !app_assoc.
Qed.

(** [Sign] returns the error of [signArgs] and touches nothing. *)
Lemma Sign_early (st : State) (s : ptr) (ks : kmsSigner) (rand : Reader)
      (digest : string) (opts : crypto.SignerOpts) (err : error) :
  nth_error (heap st) s = Some ks ->
  signArgs ks opts = Returned (inr err) ->
  Sign s rand digest opts st = (Returned (EmptyString, Some err), st).
Proof.
  intros Hs Hargs. unfold Sign, bind, deref, lift. now rewrite Hs, Hargs.
Qed.

(** [Sign] with an argument list, a resolved command and a pipe: one child
    is started on the digest, and its answer decides the result. *)
Lemma Sign_started (st : State) (s : ptr) (ks : kmsSigner) (rand : Reader)
      (digest : string) (opts : crypto.SignerOpts) (args : list string) :
  nth_error (heap st) s = Some ks ->
  signArgs ks opts = Returned (inl args) ->
  let cmd := signCommand ks args (log st) in
  exec.Err cmd = None ->
  os_Pipe (log st) cmd = None ->
  Sign s rand digest opts st
  = (Returned
       match snd (child (log st ++ [StdinPipeCall cmd]) cmd digest) with
       | Some err => (EmptyString, Some (exitError cmd err))
       | None => Base64.DecodeString
                   (fst (child (log st ++ [StdinPipeCall cmd]) cmd digest))
       end,
     {| heap := heap st;
        log := (log st ++ [StdinPipeCall cmd; StartCall cmd digest])%list |}).
Proof.
  intros Hs Hargs cmd Herr Hpipe.
  unfold Sign, bind, deref, lift. rewrite Hs, Hargs.
  unfold Command, StdinPipe, Output, bind, history, emit, ret. cbn [log heap].
  fold (signCommand ks args (log st)). fold cmd.
  rewrite Hpipe, Herr. cbn [log heap]. unfold append.
  rewrite <- app_assoc. cbn [app].
  destruct (snd (child (log st ++ [StdinPipeCall cmd]) cmd digest)); reflexivity.
Qed.

(** The only calls [Sign] makes to the outside are for the command made of
    the plugin path and the argument list of [signArgs]; a child, if one is
    started, reads the digest. *)
Lemma Sign_commands (st : State) (s : ptr) (ks : kmsSigner) (rand : Reader)
      (digest : string) (opts : crypto.SignerOpts) (args : list string) :
  nth_error (heap st) s = Some ks ->
  signArgs ks opts = Returned (inl args) ->
  Forall (fun e : Event =>
            match e with
            | StdinPipeCall cmd => cmd = signCommand ks args (log st)
            | StartCall cmd stdin =>
                cmd = signCommand ks args (log st) /\ stdin = digest
            | _ => False
            end)
         (Spec.newEvents st (snd (Sign s rand digest opts st))).
Proof.
  intros Hs Hargs. unfold Sign, bind, deref, lift. rewrite Hs, Hargs.
  unfold Command, StdinPipe, Output, bind, history, emit, ret. cbn [log heap].
  fold (signCommand ks args (log st)).
  assert (Hnew : forall (es : list Event) (hp : list kmsSigner),
             Spec.newEvents st {| heap := hp; log := (log st ++ es)%list |} = es).
  { intros es hp. unfold Spec.newEvents. cbn [log].
    now rewrite skipn_app, skipn_all, Nat.sub_diag. }
  destruct (os_Pipe _ _).
  - cbn [snd]. unfold append. rewrite Hnew. now repeat constructor.
  - destruct (exec.Err (signCommand ks args (log st))).
    + cbn [snd]. unfold append. rewrite Hnew. now repeat constructor.
    + cbn [log heap]. unfold append. rewrite <- app_assoc. cbn [app].
      destruct (snd (child _ _ _)); cbn [snd]; rewrite Hnew; now repeat constructor.
Qed.

End SignArgs.

(* ================================================================= *)
(** * Text: concatenation and occurrence *)

Section Text.

Lemma append_assoc (a b c : string) : (a ++ b) ++ c = a ++ b ++ c.
Proof. induction a as [| x a IH]; cbn; [reflexivity | now rewrite IH]. Qed.

Lemma append_nil_r (a : string) : a ++ EmptyString = a.
Proof. induction a as [| x a IH]; cbn; [reflexivity | now rewrite IH]. Qed.

Lemma contains_middle (pre sub post : string) : Spec.contains sub (pre ++ sub ++ post).
Proof. now exists pre, post. Qed.


Lemma contains_trans (a b c : string) :
  Spec.contains a b -> Spec.contains b c -> Spec.contains a c.
Proof.
  intros (p & q & ->) (p' & q' & ->). exists (p' ++ p), (q ++ q').
  now rewrite !append_assoc.
Qed.

Lemma contains_quoted (s : string) : Spec.contains s (Spec.quoted s).
Proof. now exists (String "034" EmptyString), (String "034" EmptyString). Qed.

Lemma concat_cons (sep a b : string) (l : list string) :
  String.concat sep (a :: b :: l) = a ++ sep ++ String.concat sep (b :: l).
Proof. reflexivity. Qed.

(** The loop of [Cmd.String]: the path and the arguments, separated by
    single spaces. *)
Lemma fold_left_args (args : list string) (b : string) :
  fold_left (fun b a => b ++ " " ++ a) args b = String.concat " " (b :: args).
Proof.
  revert b. induction args as [| a args IH]; intros b; cbn [fold_left].
  - reflexivity.
  - rewrite IH, concat_cons. destruct args as [| a' args].
    + reflexivity.
    + now rewrite !concat_cons, !append_assoc.
Qed.

End Text.

(* ================================================================= *)
(** * [Sign]: arguments, errors *)

Section SignClaims.
Context {rt : Runtime}.
Import Cryptoutil.

(** C1.  The argument list [Sign] builds.  For an RSA key and options whose
    hash is SHA-256, SHA-384 or SHA-512 it is [sign --format base64], then
    [--kms providerId] iff the provider is not empty, then [--pss] iff the
    options are PSS options, then [--alg] with the name of the hash, then the
    key identifier.  For any other key it is [sign --format base64], the
    same [--kms] part and the key identifier, whatever the options. *)
Theorem sign_argument_list (ks : kmsSigner) (opts : crypto.SignerOpts) :
  (forall (h : crypto.Hash) (alg : string),
      Spec.keyType (PublicKey ks) = Spec.RSA ->
      crypto.HashFunc opts = Some h ->
      Spec.algName h = Some alg ->
      signArgs ks opts
      = Returned (inl (["sign"; "--format"; "base64"] ++ Spec.kmsFlag (kms ks)
                         ++ Spec.pssFlag opts ++ ["--alg"; alg] ++ [key ks])%list))
  /\ (Spec.keyType (PublicKey ks) <> Spec.RSA ->
      signArgs ks opts
      = Returned (inl (["sign"; "--format"; "base64"] ++ Spec.kmsFlag (kms ks)
                         ++ [key ks])%list)).
Proof.
  split.
  - intros h alg. apply signArgs_rsa.
  - apply signArgs_other.
Qed.


(** C3, as the code has it.  With an RSA key, PSS options and a supported
    hash, [--pss] comes right after the [--kms] flag and its value (right
    after [base64] when there is none) and right before [--alg], its value
    and the key identifier, which ends the list. *)
Theorem sign_pss_position (ks : kmsSigner) (opts : crypto.SignerOpts)
        (h : crypto.Hash) (alg : string) :
  Spec.keyType (PublicKey ks) = Spec.RSA ->
  crypto.isPSSOptions opts = true ->
  crypto.HashFunc opts = Some h ->
  Spec.algName h = Some alg ->
  signArgs ks opts
  = Returned (inl ((["sign"; "--format"; "base64"] ++ Spec.kmsFlag (kms ks))
                     ++ ["--pss"; "--alg"; alg; key ks])%list).
Proof.
  intros Hkey Hpss Hh Halg.
  rewrite (signArgs_rsa ks opts h alg Hkey Hh Halg).
  unfold Spec.pssFlag. rewrite Hpss. now rewrite <- app_assoc.
Qed.

(** C4.  When the child ran and did not exit with success, [Sign] returns
    no signature and an error whose message is the word [command], the
    command line as [%q] prints it, [failed with:], a newline and the
    captured standard error, byte for byte.  The command line is the path
    and all the arguments, separated by spaces. *)
Theorem sign_exit_error (st : State) (s : ptr) (ks : kmsSigner) (rand : Reader)
        (digest : string) (opts : crypto.SignerOpts) (args : list string)
        (out state stderr : string) :
  nth_error (heap st) s = Some ks ->
  signArgs ks opts = Returned (inl args) ->
  let cmd := signCommand ks args (log st) in
  exec.Err cmd = None ->
  os_Pipe (log st) cmd = None ->
  child (log st ++ [StdinPipeCall cmd]) cmd digest
    = (out, Some (ExitError state stderr)) ->
  exists msg : string,
    fst (Sign s rand digest opts st) = Returned (EmptyString, Some (errorString msg))
    /\ msg = "command " ++ fmt_q (exec.String cmd) ++ " failed with:"
               ++ String "010" stderr
    /\ exec.String cmd = String.concat " " (exec.Path cmd :: args)
    /\ Spec.contains (fmt_q (exec.String cmd)) msg
    /\ (fmt_q (exec.String cmd) = Spec.quoted (exec.String cmd) ->
        Spec.contains (exec.String cmd) msg)
    /\ Spec.contains stderr msg.
Proof.
  intros Hs Hargs cmd Herr Hpipe Hchild.
  rewrite (Sign_started st s ks rand digest opts args Hs Hargs Herr Hpipe).
  fold cmd. rewrite Hchild. cbn [fst snd exitError].
  eexists. split; [reflexivity |]. split; [reflexivity |].
  assert (Hmid : Spec.contains (fmt_q (exec.String cmd))
            ("command " ++ fmt_q (exec.String cmd) ++ " failed with:"
               ++ String "010" stderr)) by apply contains_middle.
  split; [| split; [exact Hmid | split]].
  - unfold exec.String. rewrite Herr. apply fold_left_args.
  - intros Hq. apply (contains_trans _ (fmt_q (exec.String cmd))); [| exact Hmid].
    rewrite Hq. apply contains_quoted.
  - exists ("command " ++ fmt_q (exec.String cmd) ++ " failed with:"
              ++ String "010" EmptyString), EmptyString.
    now rewrite append_nil_r, !append_assoc.
Qed.

End SignClaims.

(* ================================================================= *)
(** * [IsX509Signer] *)

Section PredicateClaims.
Context {rt : Runtime}.
Import Cryptoutil.

(** The type switch of [IsX509Signer]. *)
Lemma x509Key_switch (pub : crypto.PublicKey) :
  match pub with
  | crypto.other_PublicKey _ => false
  | _ => true
  end = true <-> Spec.x509Key (Spec.keyType pub).
Proof.
  unfold Spec.x509Key. destruct pub; cbn; split; intros H; try tauto; try discriminate.
  destruct H as [H | [H | H]]; discriminate H.
Qed.

Lemma ed25519_assertion (pub : crypto.PublicKey) :
  match pub with
  | crypto.ed25519_PublicKey _ => true
  | _ => false
  end = true <-> Spec.keyType pub = Spec.Ed25519.
Proof. destruct pub; cbn; split; intros H; try reflexivity; discriminate H. Qed.

(** C5.  [IsX509Signer] changes nothing and answers: for a subprocess
    signer whose provider, in lower case, begins with [sshagentkms:], true
    iff the key is an Ed25519 key; for every other signer, true iff the key
    is an ECDSA, RSA or Ed25519 key. *)
Theorem is_x509_signer (st : State) :
  (forall (p : ptr) (ks : kmsSigner),
      nth_error (heap st) p = Some ks ->
      exists b : bool,
        IsX509Signer (kmsSignerPtr p) st = (Returned b, st)
        /\ (Spec.sshAgentProvider (kms ks) = true ->
            (b = true <-> Spec.keyType (PublicKey ks) = Spec.Ed25519))
        /\ (Spec.sshAgentProvider (kms ks) = false ->
            (b = true <-> Spec.x509Key (Spec.keyType (PublicKey ks)))))
  /\ (forall (dynamicType : string) (pub : crypto.PublicKey),
         exists b : bool,
           IsX509Signer (localSigner dynamicType pub) st = (Returned b, st)
           /\ (b = true <-> Spec.x509Key (Spec.keyType pub))).
Proof.
  split.
  - intros p ks Hp.
    unfold IsX509Signer, Signer_Public, Public, bind, deref, ret.
    rewrite !Hp. cbv beta iota.
    fold (Spec.sshAgentProvider (kms ks)).
    destruct (Spec.sshAgentProvider (kms ks)); eexists; (split; [reflexivity |]);
      split; intros Hagent; try discriminate Hagent.
    + apply ed25519_assertion.
    + apply x509Key_switch.
  - intros ty pub. eexists. split; [reflexivity |]. apply x509Key_switch.
Qed.

End PredicateClaims.

(* ================================================================= *)
(** * [CreateSigner] without a provider *)

Section FactoryClaims.
Context {rt : Runtime}.
Import Cryptoutil.

Lemma newEvents_app (st : State) (es : list Event) (hp : list kmsSigner) :
  Spec.newEvents st {| heap := hp; log := (log st ++ es)%list |} = es.
Proof.
  unfold Spec.newEvents. cbn [log]. rewrite skipn_app, skipn_all, Nat.sub_diag.
  reflexivity.
Qed.

(** [CreateSigner] without a provider: one call of [pemutil.Read]. *)
Lemma CreateSigner_file (st : State) (name : string) (opts : list pemutil.Options) :
  CreateSigner EmptyString name opts st
  = (Returned
       match snd (pemutil_Read (log st) name opts) with
       | Some err => (None, Some err)
       | None =>
           match fst (pemutil_Read (log st) name opts) with
           | anySigner sig => (Some sig, None)
           | anyOther _ =>
               (None, Some (errorString
                  ("file " ++ name ++ " does not contain a valid private key")))
           end
       end,
     {| heap := heap st; log := (log st ++ [ReadCall name opts])%list |}).
Proof.
  unfold CreateSigner, Read, bind, history, emit, ret. cbn [String.eqb log heap].
  destruct (snd (pemutil_Read (log st) name opts)); [reflexivity |].
  destruct (fst (pemutil_Read (log st) name opts)); reflexivity.
Qed.

(** C6.  With an empty provider, [CreateSigner] is [pemutil.Read] on the
    name and the options: its error is returned as it is, a value that is a
    signer is returned as it is, and for any other value the result is no
    signer and the error that the file does not contain a valid private
    key. *)
Theorem create_signer_delegates (st : State) (name : string)
        (opts : list pemutil.Options) :
  let r := pemutil_Read (log st) name opts in
  (forall err : error,
      snd r = Some err ->
      fst (CreateSigner EmptyString name opts st) = Returned (None, Some err))
  /\ (forall sig : Signer,
         snd r = None -> fst r = anySigner sig ->
         fst (CreateSigner EmptyString name opts st) = Returned (Some sig, None))
  /\ (forall dynamicType : string,
         snd r = None -> fst r = anyOther dynamicType ->
         fst (CreateSigner EmptyString name opts st)
         = Returned (None, Some (errorString
             ("file " ++ name ++ " does not contain a valid private key")))).
Proof.
  intros r. rewrite CreateSigner_file. fold r. cbn [fst].
  repeat split; intros; repeat match goal with H : _ = _ |- _ => rewrite H end;
    reflexivity.
Qed.

(** C7.  With an empty provider, whatever the parser answers, the only
    call [CreateSigner] makes is the one to [pemutil.Read]: no executable
    is looked up, no child is started, and the heap is as before. *)
Theorem create_signer_file_no_subprocess (st : State) (name : string)
        (opts : list pemutil.Options) :
  let st' := snd (CreateSigner EmptyString name opts st) in
  Spec.newEvents st st' = [ReadCall name opts]
  /\ existsb Spec.isStart (Spec.newEvents st st') = false
  /\ existsb Spec.isLookPath (Spec.newEvents st st') = false
  /\ heap st' = heap st.
Proof.
  intros st'. unfold st'. rewrite CreateSigner_file. cbn [snd].
  rewrite newEvents_app. repeat split.
Qed.

End FactoryClaims.

(* ================================================================= *)
(** * [Sign]: the output of the child *)

Section DecodeErrors.
Import Base64.




End DecodeErrors.

Section OutputClaims.
Context {rt : Runtime}.
Import Cryptoutil.


End OutputClaims.

(* ================================================================= *)
(** * Signers do not change *)

Section StateClaims.
Context {rt : Runtime}.
Import Cryptoutil.

Lemma extends_refl (st : State) : extends st st.
Proof. exists []. now rewrite app_nil_r. Qed.

Lemma extends_trans (a b c : State) : extends a b -> extends b c -> extends a c.
Proof.
  intros [m Hm] [m' Hm']. exists (m ++ m')%list. now rewrite Hm', Hm, app_assoc.
Qed.

Lemma extends_same_heap (st st' : State) : heap st' = heap st -> extends st st'.
Proof. intros H. exists []. now rewrite app_nil_r. Qed.

Lemma extends_lookup (st st' : State) (s : ptr) (ks : kmsSigner) :
  extends st st' -> nth_error (heap st) s = Some ks ->
  nth_error (heap st') s = Some ks.
Proof.
  intros [m Hm] Hs. rewrite Hm, nth_error_app1; [exact Hs |].
  apply nth_error_Some. congruence.
Qed.

Lemma Public_heap (s : ptr) (st : State) : heap (snd (Public s st)) = heap st.
Proof. unfold Public, bind, deref, ret. now destruct (nth_error (heap st) s). Qed.

Lemma IsX509Signer_heap (signer : Signer) (st : State) :
  heap (snd (IsX509Signer signer st)) = heap st.
Proof.
  destruct signer as [p | ty pub]; [| reflexivity].
  unfold IsX509Signer, Signer_Public, Public, bind, deref, ret.
  destruct (nth_error (heap st) p) as [ks |] eqn:Hp; [| reflexivity].
  rewrite Hp.
  now destruct (Strings.HasPrefix _ _).
Qed.

Lemma Output_heap (cmd : exec.Cmd) (stdin : string) (st : State) :
  heap (snd (Output cmd stdin st)) = heap st
  /\ exists r, fst (Output cmd stdin st) = Returned r.
Proof.
  unfold Output, bind, history, emit, ret.
  destruct (exec.Err cmd); cbn; eauto.
Qed.

Lemma Sign_heap (s : ptr) (rand : Reader) (digest : string)
      (opts : crypto.SignerOpts) (st : State) :
  heap (snd (Sign s rand digest opts st)) = heap st.
Proof.
  unfold Sign, bind, deref, lift.
  destruct (nth_error (heap st) s) as [ks |]; [| reflexivity].
  destruct (signArgs ks opts) as [[args | err] |]; try reflexivity.
  unfold Command, StdinPipe, bind, history, emit, ret. cbn [log heap].
  destruct (os_Pipe _ _); [reflexivity |].
  match goal with
  | |- context [Output ?c ?d ?x] =>
      destruct (Output_heap c d x) as [Hh [r Hr]];
      destruct (Output c d x) as [o x'] eqn:Ho
  end.
  cbn [fst snd] in Hh, Hr. subst o.
  destruct (snd r); exact Hh.
Qed.

Lemma newKMSSigner_extends (kms key : string) (st : State) :
  extends st (snd (newKMSSigner kms key st)).
Proof.
  unfold newKMSSigner, LookPath, bind, history, emit, ret. cbn [log heap].
  destruct (snd (plugin_LookPath (log st) "kms")); [now apply extends_same_heap |].
  unfold Command, bind, history, ret. cbn [log heap].
  match goal with
  | |- context [Output ?c ?d ?x] =>
      destruct (Output_heap c d x) as [Hh [r Hr]];
      destruct (Output c d x) as [o x'] eqn:Ho
  end.
  cbn [fst snd heap] in Hh, Hr. subst o.
  destruct (snd r); [now apply extends_same_heap |].
  destruct (pemutil_Parse (fst r)) as [pub [err |]];
    [now apply extends_same_heap |].
  unfold alloc. cbn [snd heap]. rewrite Hh. unfold append. now eexists.
Qed.

Lemma CreateSigner_extends (kms name : string) (opts : list pemutil.Options)
      (st : State) :
  extends st (snd (CreateSigner kms name opts st)).
Proof.
  unfold CreateSigner. destruct (kms =? "")%string eqn:Hk.
  - apply String.eqb_eq in Hk. subst kms.
    pose proof (CreateSigner_file st name opts) as H.
    unfold CreateSigner in H. cbn [String.eqb] in H. rewrite H.
    now apply extends_same_heap.
  - apply newKMSSigner_extends.
Qed.

Lemma after_extends (c : Call) (st : State) : extends st (after c st).
Proof.
  destruct c; cbn [after].
  - apply CreateSigner_extends.
  - apply extends_refl.
  - apply extends_same_heap, IsX509Signer_heap.
  - apply extends_same_heap, Public_heap.
  - apply extends_same_heap, Sign_heap.
Qed.

Lemma afterAll_extends (cs : list Call) (st : State) : extends st (afterAll cs st).
Proof.
  revert st. induction cs as [| c cs IH]; intros st; cbn [afterAll fold_left].
  - apply extends_refl.
  - eapply extends_trans; [apply after_extends | apply IH].
Qed.

(** C9.  A signer that exists stays as it is.  [Public], [Sign],
    [IsKMSSigner] and [IsX509Signer] leave the whole heap as it was; after
    any sequence of calls of the package, the creation of other signers
    included, the signer has the fields it had, [Public] returns the key it
    held, and [Sign] builds from equal options the argument list it built
    before. *)
Theorem kms_signer_immutable (st : State) (s : ptr) (ks : kmsSigner) :
  nth_error (heap st) s = Some ks ->
  (forall (signer : Signer) (p : ptr) (rand : Reader) (digest : string)
          (opts : crypto.SignerOpts),
      heap (after (callPublic p) st) = heap st
      /\ heap (after (callSign p rand digest opts) st) = heap st
      /\ heap (after (callIsKMSSigner signer) st) = heap st
      /\ heap (after (callIsX509Signer signer) st) = heap st)
  /\ (forall cs : list Call,
         nth_error (heap (afterAll cs st)) s = Some ks
         /\ fst (Public s (afterAll cs st)) = Returned (PublicKey ks)
         /\ forall opts : crypto.SignerOpts,
             fst (bind (deref s) (fun ks' => lift (signArgs ks' opts)) (afterAll cs st))
             = fst (bind (deref s) (fun ks' => lift (signArgs ks' opts)) st)).
Proof.
  intros Hs. split.
  - intros signer p rand digest opts. cbn [after].
    repeat split;
      [apply Public_heap | apply Sign_heap | apply IsX509Signer_heap].
  - intros cs.
    pose proof (extends_lookup st _ s ks (afterAll_extends cs st) Hs) as Hs'.
    split; [exact Hs' |]. split.
    + unfold Public, bind, deref, ret. now rewrite Hs'.
    + intros opts. unfold bind, deref, lift. now rewrite Hs', Hs.
Qed.

(** C10.  [Sign] never looks at its source of randomness.  Two calls on
    the same signer with the same digest and options, made after the same
    calls to the outside, return the same signature or error and leave the
    same log (the command, its argument list and the bytes fed to the child
    are in it), whatever the two readers are and whatever else the two heaps
    hold. *)
Theorem sign_ignores_rand (s : ptr) (rand1 rand2 : Reader) (digest : string)
        (opts : crypto.SignerOpts) (st1 st2 : State) :
  nth_error (heap st1) s = nth_error (heap st2) s ->
  log st1 = log st2 ->
  fst (Sign s rand1 digest opts st1) = fst (Sign s rand2 digest opts st2)
  /\ log (snd (Sign s rand1 digest opts st1)) = log (snd (Sign s rand2 digest opts st2))
  /\ Sign s rand1 digest opts st1 = Sign s rand2 digest opts st1.
Proof.
  intros Hs Hlog.
  assert (H : fst (Sign s rand1 digest opts st1) = fst (Sign s rand2 digest opts st2)
              /\ log (snd (Sign s rand1 digest opts st1))
                 = log (snd (Sign s rand2 digest opts st2))).
  { unfold Sign, bind, deref, lift. rewrite <- Hs.
    destruct (nth_error (heap st1) s) as [ks |]; [| now split].
    destruct (signArgs ks opts) as [[args | err] |]; try (now split).
    unfold Command, StdinPipe, Output, bind, history, emit, ret. cbn [log heap].
    rewrite <- Hlog. destruct (os_Pipe _ _); [now split |].
    destruct (snd (exec_LookPath (log st1) (name ks))); cbn [exec.Err snd fst];
      [now split |].
    cbn [log heap]. now destruct (snd (child _ _ _)). }
  destruct H as [Hres Hlogs]. repeat split; assumption.
Qed.

End StateClaims.

(* ================================================================= *)
(** * The provider test on ASCII text, and construction *)

Section Providers.
Import Strings.

Lemma mapBytes_no_upper (s : string) :
  allBytes (fun c => negb (isUpperByte c)) s = true -> mapBytes lowerByte s = s.
Proof.
  unfold allBytes, mapBytes. induction s as [| c s IH]; cbn; [reflexivity |].
  intros H. apply andb_true_iff in H as [Hc Hs].
  unfold lowerByte at 1. apply negb_true_iff in Hc. rewrite Hc.
  now rewrite IH.
Qed.

(** On ASCII text [ToLower] is the byte-wise lower case. *)
Lemma ToLower_ascii (unicodeLower : string -> string) (s : string) :
  allBytes isASCIIByte s = true -> ToLower unicodeLower s = mapBytes lowerByte s.
Proof.
  intros H. unfold ToLower. rewrite H.
  destruct (allBytes (fun c => negb (isUpperByte c)) s) eqn:E; cbn [negb].
  - symmetry. now apply mapBytes_no_upper.
  - reflexivity.
Qed.

(** For an ASCII provider the ssh-agent test is a prefix test on the
    lower-cased bytes, whatever the Unicode tables are. *)
Lemma sshAgentProvider_ascii {rt : Runtime} (providerId : string) :
  allBytes isASCIIByte providerId = true ->
  Spec.sshAgentProvider providerId
  = String.prefix "sshagentkms:" (mapBytes lowerByte providerId).
Proof.
  intros H. unfold Spec.sshAgentProvider, HasPrefix. now rewrite ToLower_ascii.
Qed.

Example sshAgentProvider_mixed_case {rt : Runtime} :
  Spec.sshAgentProvider "SshAgentKMS:default" = true.
Proof. reflexivity. Qed.

Example sshAgentProvider_other {rt : Runtime} :
  Spec.sshAgentProvider "pkcs11:module" = false.
Proof. reflexivity. Qed.

End Providers.

Section Construction.
Context {rt : Runtime}.
Import Cryptoutil.


End Construction.

(* ================================================================= *)
(** * The properties on the sample worlds *)

Section Witnesses.
Import Cryptoutil.

(** C1 on the sample world: an RSA signer with a provider and PSS options,
    and an Ed25519 signer without a provider. *)
Lemma sign_argument_list_witness :
  @signArgs Sample.echo Sample.rsaSigner Sample.pss256
  = Returned (inl ["sign"; "--format"; "base64"; "--kms"; "pkcs11:module";
                   "--pss"; "--alg"; "SHA256"; "id=1"])
  /\ @signArgs Sample.echo Sample.edSigner Sample.pss256
     = Returned (inl ["sign"; "--format"; "base64"; "key.pem"]).
Proof.
  split.
  - apply (proj1 (@sign_argument_list Sample.echo Sample.rsaSigner Sample.pss256)
             crypto.SHA256 "SHA256"); reflexivity.
  - apply (proj2 (@sign_argument_list Sample.echo Sample.edSigner Sample.pss256)).
    discriminate.
Defined.


(** C3, as amended, on the sample world. *)
Lemma sign_pss_position_witness :
  @signArgs Sample.echo Sample.rsaSigner Sample.pss256
  = Returned (inl ((["sign"; "--format"; "base64"] ++ ["--kms"; "pkcs11:module"])
                     ++ ["--pss"; "--alg"; "SHA256"; "id=1"])%list).
Proof.
  apply (@sign_pss_position Sample.echo Sample.rsaSigner Sample.pss256
           crypto.SHA256 "SHA256"); reflexivity.
Defined.

(** C3 as stated fails: with an RSA key, a provider and PSS options, the
    list is [sign --format base64 --kms pkcs11:module --pss --alg SHA256
    id=1], where [--pss] stands before [--alg], not after it. *)
Lemma sign_pss_after_alg_counterexample :
  Spec.keyType (PublicKey Sample.rsaSigner) = Spec.RSA
  /\ crypto.isPSSOptions Sample.pss256 = true
  /\ exists args : list string,
       @signArgs Sample.echo Sample.rsaSigner Sample.pss256 = Returned (inl args)
       /\ ~ Spec.pssAfterFlags (kms Sample.rsaSigner) (key Sample.rsaSigner) args.
Proof.
  split; [reflexivity |]. split; [reflexivity |].
  eexists. split; [reflexivity |].
  intros (pre & post & Heq & Halg & _).
  repeat (destruct pre as [| ? pre];
          [ cbn in Heq; try discriminate Heq;
            cbn in Halg; intuition discriminate
          | cbn in Heq; injection Heq as <- Heq ]).
  destruct pre; discriminate Heq.
Qed.

(** C4 on the world whose plugin fails: the message has the command line
    and the text [no such key]. *)
Lemma sign_exit_error_witness :
  exists msg : string,
    fst (@Sign Sample.failing 1%nat nilReader "digest" (crypto.hashOpts 0) Sample.st0)
    = Returned (EmptyString, Some (errorString msg))
    /\ Spec.contains "/usr/local/bin/step-kms-plugin sign --format base64 key.pem" msg
    /\ Spec.contains "no such key" msg.
Proof.
  destruct (@sign_exit_error Sample.failing Sample.st0 1%nat Sample.edSigner
              nilReader "digest" (crypto.hashOpts 0)
              ["sign"; "--format"; "base64"; "key.pem"]
              EmptyString "exit status 1" "no such key"
              eq_refl eq_refl eq_refl eq_refl eq_refl)
    as (msg & Hsign & _ & _ & _ & Hcmd & Herr).
  exists msg. split; [exact Hsign |]. split; [| exact Herr].
  apply Hcmd. reflexivity.
Defined.

(** C5 on the sample heap: an RSA key under the ssh-agent provider, and an
    RSA key under another provider. *)
Lemma is_x509_signer_witness :
  (exists b : bool,
      @IsX509Signer Sample.echo (kmsSignerPtr 2%nat) Sample.st0 = (Returned b, Sample.st0)
      /\ (b = true <-> Spec.keyType (PublicKey Sample.agentSigner) = Spec.Ed25519))
  /\ (exists b : bool,
         @IsX509Signer Sample.echo (kmsSignerPtr 0%nat) Sample.st0 = (Returned b, Sample.st0)
         /\ (b = true <-> Spec.x509Key (Spec.keyType (PublicKey Sample.rsaSigner)))).
Proof.
  split.
  - destruct (proj1 (@is_x509_signer Sample.echo Sample.st0) 2%nat Sample.agentSigner
                eq_refl) as (b & Hb & Hagent & _).
    exists b. split; [exact Hb | apply Hagent; reflexivity].
  - destruct (proj1 (@is_x509_signer Sample.echo Sample.st0) 0%nat Sample.rsaSigner
                eq_refl) as (b & Hb & _ & Hother).
    exists b. split; [exact Hb | apply Hother; reflexivity].
Defined.

(** C6 on the sample world: a certificate, a private key and a file that
    does not exist. *)
Lemma create_signer_delegates_witness :
  fst (@CreateSigner Sample.echo EmptyString "cert.pem" [] Sample.st0)
  = Returned (None, Some (errorString
      "file cert.pem does not contain a valid private key"))
  /\ fst (@CreateSigner Sample.echo EmptyString "key.pem" [] Sample.st0)
     = Returned (Some (localSigner "ed25519.PrivateKey"
                         (crypto.ed25519_PublicKey "pub")), None)
  /\ fst (@CreateSigner Sample.echo EmptyString "none.pem" [] Sample.st0)
     = Returned (None, Some (foreignError "no such file")).
Proof.
  split; [| split].
  - apply (proj2 (proj2 (@create_signer_delegates Sample.echo Sample.st0 "cert.pem" []))
             "x509.Certificate"); reflexivity.
  - apply (proj1 (proj2 (@create_signer_delegates Sample.echo Sample.st0 "key.pem" [])));
      reflexivity.
  - apply (proj1 (@create_signer_delegates Sample.echo Sample.st0 "none.pem" []));
      reflexivity.
Defined.



(** C9 on a signer made by [newKMSSigner]: [Public] returns the key parsed
    at construction, also after other calls. *)
Lemma kms_signer_immutable_witness :
  let st := snd (@newKMSSigner Sample.echo "pkcs11:module" "id=2" Sample.st0) in
  let cs := [callSign 3%nat nilReader "digest" Sample.pss256;
             callCreateSigner "pkcs11:module" "id=3" [];
             callIsX509Signer (kmsSignerPtr 3%nat);
             callPublic 0%nat] in
  fst (Public 3%nat st) = Returned (crypto.ed25519_PublicKey "PEM")
  /\ fst (Public 3%nat (@afterAll Sample.echo cs st))
     = Returned (crypto.ed25519_PublicKey "PEM").
Proof.
  intros st cs. split; [reflexivity |].
  apply (proj2 (@kms_signer_immutable Sample.echo st 3%nat
                  {| PublicKey := crypto.ed25519_PublicKey "PEM";
                     name := Sample.pluginPath;
                     kms := "pkcs11:module"; key := "id=2" |}
                  eq_refl) cs).
Defined.

(** C10 on the sample world: two readers, two heaps holding the same
    signer at address 0. *)
Lemma sign_ignores_rand_witness :
  fst (@Sign Sample.echo 0%nat nilReader "digest" Sample.pss256 Sample.st0)
  = fst (@Sign Sample.echo 0%nat (reader "entropy") "digest" Sample.pss256
           {| heap := [Sample.rsaSigner]; log := [] |}).
Proof.
  apply (@sign_ignores_rand Sample.echo 0%nat nilReader (reader "entropy") "digest"
           Sample.pss256 Sample.st0 {| heap := [Sample.rsaSigner]; log := [] |}
           eq_refl eq_refl).
Defined.

End Witnesses.

(* ================================================================= *)
(** * [newKMSSigner] and [CreateSigner] with a provider *)

Section KMSFactory.
Context {rt : Runtime}.
Import Cryptoutil.

Lemma keyArgs_append (providerId keyId : string) :
  append (if negb (providerId =? "")%string
          then append ["key"] ["--kms"; providerId] else ["key"]) [keyId]
  = Fetch.keyArgs providerId keyId.
Proof.
  unfold Fetch.keyArgs, Spec.kmsFlag, append.
  now destruct (providerId =? "")%string.
Qed.

(** [newKMSSigner], step by step: the lookup of the plugin, the command,
    the child, the parser, the allocation. *)
Lemma newKMSSigner_run (providerId keyId : string) (st : State) :
  let lp := plugin_LookPath (log st) "kms" in
  let h1 := (log st ++ [LookPathCall "kms"])%list in
  let cmd := Fetch.keyCommand (fst lp) providerId keyId h1 in
  let out := child h1 cmd EmptyString in
  newKMSSigner providerId keyId st
  = match snd lp with
    | Some err => (Returned (None, Some err), {| heap := heap st; log := h1 |})
    | None =>
        match exec.Err cmd with
        | Some err =>
            (Returned (None, Some (exitError cmd err)), {| heap := heap st; log := h1 |})
        | None =>
            let st2 := {| heap := heap st;
                          log := (log st ++ [LookPathCall "kms"; StartCall cmd EmptyString])%list |} in
            match snd out with
            | Some err => (Returned (None, Some (exitError cmd err)), st2)
            | None =>
                match snd (pemutil_Parse (fst out)) with
                | Some err => (Returned (None, Some err), st2)
                | None =>
                    (Returned (Some (kmsSignerPtr (List.length (heap st))), None),
                     {| heap := (heap st ++
                                 [{| PublicKey := fst (pemutil_Parse (fst out));
                                     name := fst lp; kms := providerId; key := keyId |}])%list;
                        log := log st2 |})
                end
            end
        end
    end.
Proof.
  intros lp h1 cmd out. subst out cmd h1 lp.
  unfold newKMSSigner, LookPath, Command, Output, bind, history, emit, ret.
  cbn [log heap].
  destruct (snd (plugin_LookPath (log st) "kms")); [reflexivity |].
  cbn [log heap exec.Err]. rewrite keyArgs_append.
  unfold Fetch.keyCommand, append. cbn [exec.Err].
  destruct (snd (exec_LookPath _ _)); [reflexivity |].
  cbn [log heap]. rewrite <- app_assoc. cbn [app].
  destruct (snd (child _ _ _)); [reflexivity |].
  destruct (pemutil_Parse _) as [pub [err |]]; reflexivity.
Qed.

Lemma CreateSigner_kms (providerId keyId : string) (opts : list pemutil.Options)
      (st : State) :
  providerId <> EmptyString ->
  CreateSigner providerId keyId opts st = newKMSSigner providerId keyId st.
Proof.
  intros H. unfold CreateSigner.
  destruct (String.eqb_spec providerId ""); [contradiction | reflexivity].
Qed.

End KMSFactory.

Section KMSFactoryProperties.
Context {rt : Runtime}.
Import Cryptoutil.

(** X1.  With a provider, when the plugin executable is not found,
    [CreateSigner] returns no signer and the error of the lookup as it is;
    the lookup is the only call made: no child is started and no signer is
    allocated. *)
Theorem create_signer_plugin_not_found (providerId keyId : string)
        (opts : list pemutil.Options) (st : State) (err : error) :
  providerId <> EmptyString ->
  snd (plugin_LookPath (log st) "kms") = Some err ->
  let st' := snd (CreateSigner providerId keyId opts st) in
  fst (CreateSigner providerId keyId opts st) = Returned (None, Some err)
  /\ Spec.newEvents st st' = [LookPathCall "kms"]
  /\ heap st' = heap st.
Proof.
  intros Hp Hlp st'. unfold st'.
  rewrite (CreateSigner_kms _ _ _ _ Hp), newKMSSigner_run, Hlp.
  cbn [fst snd heap]. rewrite newEvents_app. now repeat split.
Qed.

(** X2.  With a provider, when the plugin is found, its path resolves, the
    child run as [<plugin> key --kms <provider> <key id>] with no input
    exits with success and its output parses, [CreateSigner] returns a
    pointer to a new signer at the first free address.  The signer holds the
    plugin path, the provider, the key identifier and the parsed key; the
    older signers are where they were; the calls made are the lookup and
    one child. *)
Theorem create_signer_kms_success (providerId keyId : string)
        (opts : list pemutil.Options) (st : State) (out : string)
        (pub : crypto.PublicKey) :
  providerId <> EmptyString ->
  let lp := plugin_LookPath (log st) "kms" in
  let h1 := (log st ++ [LookPathCall "kms"])%list in
  let cmd := Fetch.keyCommand (fst lp) providerId keyId h1 in
  snd lp = None ->
  exec.Err cmd = None ->
  child h1 cmd EmptyString = (out, None) ->
  pemutil_Parse out = (pub, None) ->
  let st' := snd (CreateSigner providerId keyId opts st) in
  fst (CreateSigner providerId keyId opts st)
    = Returned (Some (kmsSignerPtr (List.length (heap st))), None)
  /\ heap st'
     = (heap st ++ [{| PublicKey := pub; name := fst lp;
                       kms := providerId; key := keyId |}])%list
  /\ Spec.newEvents st st' = [LookPathCall "kms"; StartCall cmd EmptyString]
  /\ exec.Args cmd = [fst lp; "key"; "--kms"; providerId; keyId].
Proof.
  intros Hp lp h1 cmd Hlp Herr Hchild Hparse st'. unfold st'.
  rewrite (CreateSigner_kms _ _ _ _ Hp), newKMSSigner_run.
  fold lp h1 cmd. rewrite Hlp, Herr, Hchild. cbn [fst snd]. rewrite Hparse.
  cbn [fst snd heap log]. rewrite newEvents_app. repeat split.
  unfold cmd, Fetch.keyCommand, Fetch.keyArgs, Spec.kmsFlag. cbn [exec.Args].
  destruct (String.eqb_spec providerId ""); [contradiction | reflexivity].
Qed.

(** X3.  With a provider, when the child that fetches the key exits
    without success, [CreateSigner] returns no signer and an error whose
    message is [command], the command line as [%q] prints it, [failed with:],
    a newline and the captured standard error; the output of the child is
    not parsed and no signer is allocated. *)
Theorem create_signer_kms_fetch_failure (providerId keyId : string)
        (opts : list pemutil.Options) (st : State)
        (out state stderr : string) :
  providerId <> EmptyString ->
  let lp := plugin_LookPath (log st) "kms" in
  let h1 := (log st ++ [LookPathCall "kms"])%list in
  let cmd := Fetch.keyCommand (fst lp) providerId keyId h1 in
  snd lp = None ->
  exec.Err cmd = None ->
  child h1 cmd EmptyString = (out, Some (ExitError state stderr)) ->
  let st' := snd (CreateSigner providerId keyId opts st) in
  fst (CreateSigner providerId keyId opts st)
    = Returned (None, Some (errorString
        ("command " ++ fmt_q (exec.String cmd) ++ " failed with:"
           ++ String "010" stderr)))
  /\ exec.String cmd
     = String.concat " " [exec.Path cmd; "key"; "--kms"; providerId; keyId]
  /\ heap st' = heap st
  /\ Fetch.children (Spec.newEvents st st') = 1%nat.
Proof.
  intros Hp lp h1 cmd Hlp Herr Hchild st'. unfold st'.
  rewrite (CreateSigner_kms _ _ _ _ Hp), newKMSSigner_run.
  fold lp h1 cmd. rewrite Hlp, Herr, Hchild. cbn [fst snd heap log exitError].
  rewrite newEvents_app. repeat split.
  unfold exec.String. rewrite Herr. rewrite fold_left_args.
  unfold cmd, Fetch.keyCommand, Fetch.keyArgs, Spec.kmsFlag. cbn [exec.Args exec.Path tl].
  destruct (String.eqb_spec providerId ""); [contradiction | reflexivity].
Qed.

(** X4.  With a provider, when the child exits with success but its output
    does not parse as a key, [CreateSigner] returns no signer and the error
    of the parser as it is, not wrapped in the command line; no signer is
    allocated. *)
Theorem create_signer_kms_parse_failure (providerId keyId : string)
        (opts : list pemutil.Options) (st : State) (out : string) (err : error) :
  providerId <> EmptyString ->
  let lp := plugin_LookPath (log st) "kms" in
  let h1 := (log st ++ [LookPathCall "kms"])%list in
  let cmd := Fetch.keyCommand (fst lp) providerId keyId h1 in
  snd lp = None ->
  exec.Err cmd = None ->
  child h1 cmd EmptyString = (out, None) ->
  snd (pemutil_Parse out) = Some err ->
  fst (CreateSigner providerId keyId opts st) = Returned (None, Some err)
  /\ heap (snd (CreateSigner providerId keyId opts st)) = heap st.
Proof.
  intros Hp lp h1 cmd Hlp Herr Hchild Hparse.
  rewrite (CreateSigner_kms _ _ _ _ Hp), newKMSSigner_run.
  fold lp h1 cmd. rewrite Hlp, Herr, Hchild. cbn [fst snd]. rewrite Hparse.
  now split.
Qed.

(** X5.  [CreateSigner] never panics and returns either a signer and no
    error, or no signer and an error.  It starts at most one child, none
    when the provider is empty.  The heap is as before unless a subprocess
    signer is returned, and then exactly one signer was added, at the
    address returned.  With a provider the parsing options play no part. *)
Theorem create_signer_result (providerId name : string)
        (opts : list pemutil.Options) (st : State) :
  exists (r : option Signer * option error) (st' : State),
    CreateSigner providerId name opts st = (Returned r, st')
    /\ match r with
       | (Some sig, None) =>
           (providerId = EmptyString /\ heap st' = heap st)
           \/ (providerId <> EmptyString
               /\ sig = kmsSignerPtr (List.length (heap st))
               /\ List.length (heap st') = S (List.length (heap st)))
       | (None, Some _) => heap st' = heap st
       | _ => False
       end
    /\ (Fetch.children (Spec.newEvents st st') <= 1)%nat
    /\ (providerId = EmptyString -> Fetch.children (Spec.newEvents st st') = 0%nat)
    /\ (providerId <> EmptyString ->
        forall opts' : list pemutil.Options,
          CreateSigner providerId name opts' st = (Returned r, st')).
Proof.
  destruct (String.eqb_spec providerId "") as [-> | Hp].
  - rewrite CreateSigner_file. do 2 eexists. split; [reflexivity |].
    rewrite newEvents_app. cbn [heap Fetch.children filter Spec.isStart List.length].
    split; [| split; [lia | split; [reflexivity | congruence]]].
    destruct (snd (pemutil_Read (log st) name opts)); [reflexivity |].
    destruct (fst (pemutil_Read (log st) name opts)); [now left | reflexivity].
  - assert (Hrun : exists (r : option Signer * option error) (st' : State),
               newKMSSigner providerId name st = (Returned r, st')
               /\ match r with
                  | (Some sig, None) =>
                      sig = kmsSignerPtr (List.length (heap st))
                      /\ List.length (heap st') = S (List.length (heap st))
                  | (None, Some _) => heap st' = heap st
                  | _ => False
                  end
               /\ (Fetch.children (Spec.newEvents st st') <= 1)%nat).
    { rewrite newKMSSigner_run.
      destruct (snd (plugin_LookPath (log st) "kms")).
      { do 2 eexists. split; [reflexivity |]. rewrite newEvents_app.
        cbn. split; [reflexivity | lia]. }
      destruct (exec.Err _).
      { do 2 eexists. split; [reflexivity |]. rewrite newEvents_app.
        cbn. split; [reflexivity | lia]. }
      cbv zeta. destruct (snd (child _ _ _)).
      { do 2 eexists. split; [reflexivity |]. rewrite newEvents_app.
        cbn. split; [reflexivity | lia]. }
      destruct (snd (pemutil_Parse _)).
      { do 2 eexists. split; [reflexivity |]. rewrite newEvents_app.
        cbn. split; [reflexivity | lia]. }
      do 2 eexists. split; [reflexivity |]. cbn [log]. rewrite newEvents_app.
      cbn [heap]. rewrite length_app. cbn. split; [split; [reflexivity | lia] | lia]. }
    destruct Hrun as (r & st' & Hrun & Hshape & Hchildren).
    exists r, st'. rewrite (CreateSigner_kms _ _ _ _ Hp).
    split; [exact Hrun |]. split.
    + destruct r as [[sig |] [err |]]; try exact Hshape.
      right. split; [exact Hp | exact Hshape].
    + split; [exact Hchildren |]. split; [intros ->; contradiction |].
      intros _ opts'. now rewrite (CreateSigner_kms _ _ _ _ Hp).
Qed.

End KMSFactoryProperties.

(* ================================================================= *)
(** * [Sign]: the paths on which no signature comes back *)

Section SignPaths.
Context {rt : Runtime}.
Import Cryptoutil.

Lemma newEvents_same (st : State) : Spec.newEvents st st = [].
Proof. apply skipn_all. Qed.

(** [Sign] once the argument list is built: the pipe, the start of the
    child, its answer. *)
Lemma Sign_run (st : State) (s : ptr) (ks : kmsSigner) (rand : Reader)
      (digest : string) (opts : crypto.SignerOpts) (args : list string) :
  nth_error (heap st) s = Some ks ->
  signArgs ks opts = Returned (inl args) ->
  let cmd := signCommand ks args (log st) in
  let piped := {| heap := heap st; log := (log st ++ [StdinPipeCall cmd])%list |} in
  Sign s rand digest opts st
  = match os_Pipe (log st) cmd with
    | Some err => (Returned (EmptyString, Some err), piped)
    | None =>
        match exec.Err cmd with
        | Some err => (Returned (EmptyString, Some (exitError cmd err)), piped)
        | None =>
            (Returned
               match snd (child (log piped) cmd digest) with
               | Some err => (EmptyString, Some (exitError cmd err))
               | None => Base64.DecodeString (fst (child (log piped) cmd digest))
               end,
             {| heap := heap st;
                log := (log st ++ [StdinPipeCall cmd; StartCall cmd digest])%list |})
        end
    end.
Proof.
  intros Hs Hargs cmd piped.
  destruct (os_Pipe (log st) cmd) as [perr |] eqn:Hpipe.
  - unfold Sign, bind, deref, lift. rewrite Hs, Hargs.
    unfold Command, StdinPipe, bind, history, emit, ret. cbn [log heap].
    fold (signCommand ks args (log st)). fold cmd. now rewrite Hpipe.
  - destruct (exec.Err cmd) as [err |] eqn:Herr.
    + unfold Sign, bind, deref, lift. rewrite Hs, Hargs.
      unfold Command, StdinPipe, Output, bind, history, emit, ret. cbn [log heap].
      fold (signCommand ks args (log st)). fold cmd. now rewrite Hpipe, Herr.
    + apply (Sign_started st s ks rand digest opts args Hs Hargs Herr Hpipe).
Qed.

(** X6.  When the pipe to the child cannot be made, [Sign] returns no
    signature and the error of the pipe as it is, without the command line;
    no child is started. *)
Theorem sign_stdin_pipe_error (st : State) (s : ptr) (ks : kmsSigner)
        (rand : Reader) (digest : string) (opts : crypto.SignerOpts)
        (args : list string) (err : error) :
  nth_error (heap st) s = Some ks ->
  signArgs ks opts = Returned (inl args) ->
  let cmd := signCommand ks args (log st) in
  os_Pipe (log st) cmd = Some err ->
  let st' := snd (Sign s rand digest opts st) in
  fst (Sign s rand digest opts st) = Returned (EmptyString, Some err)
  /\ Spec.newEvents st st' = [StdinPipeCall cmd]
  /\ Fetch.children (Spec.newEvents st st') = 0%nat.
Proof.
  intros Hs Hargs cmd Hpipe st'. unfold st'.
  rewrite (Sign_run st s ks rand digest opts args Hs Hargs).
  fold cmd. rewrite Hpipe. cbn [fst snd]. rewrite newEvents_app. now repeat split.
Qed.

(** X7.  When the path of the plugin did not resolve while the command was
    made, [Sign] starts no child.  It returns no signature and an error
    that wraps the error of the resolution; the message shows the command
    as requested: the name and the arguments, separated by spaces. *)
Theorem sign_command_unresolved (st : State) (s : ptr) (ks : kmsSigner)
        (rand : Reader) (digest : string) (opts : crypto.SignerOpts)
        (args : list string) (err : error) :
  nth_error (heap st) s = Some ks ->
  signArgs ks opts = Returned (inl args) ->
  let cmd := signCommand ks args (log st) in
  os_Pipe (log st) cmd = None ->
  exec.Err cmd = Some err ->
  errors.isExitError err = false ->
  let st' := snd (Sign s rand digest opts st) in
  exists e : error,
    fst (Sign s rand digest opts st) = Returned (EmptyString, Some e)
    /\ errors.Unwrap e = Some err
    /\ Error e = "command " ++ fmt_q (String.concat " " (name ks :: args))
                   ++ " failed with: " ++ Error err
    /\ Fetch.children (Spec.newEvents st st') = 0%nat.
Proof.
  intros Hs Hargs cmd Hpipe Herr Hexit st'. unfold st'.
  rewrite (Sign_run st s ks rand digest opts args Hs Hargs).
  fold cmd. rewrite Hpipe, Herr. cbn [fst snd]. rewrite newEvents_app.
  eexists. split; [reflexivity |].
  unfold exitError, exec.String. rewrite Herr.
  destruct err; try discriminate Hexit; now repeat split.
Qed.

(** X8.  When the child could not be run and the error is not an exit
    error, [Sign] returns no signature, whatever was captured from the
    child, and an error that wraps the error of the run; its message has
    the command line as [%q] prints it and the message of that error. *)
Theorem sign_launch_error (st : State) (s : ptr) (ks : kmsSigner)
        (rand : Reader) (digest : string) (opts : crypto.SignerOpts)
        (args : list string) (out : string) (err : error) :
  nth_error (heap st) s = Some ks ->
  signArgs ks opts = Returned (inl args) ->
  let cmd := signCommand ks args (log st) in
  os_Pipe (log st) cmd = None ->
  exec.Err cmd = None ->
  child (log st ++ [StdinPipeCall cmd]) cmd digest = (out, Some err) ->
  errors.isExitError err = false ->
  exists e : error,
    fst (Sign s rand digest opts st) = Returned (EmptyString, Some e)
    /\ errors.Unwrap e = Some err
    /\ Error e = "command " ++ fmt_q (exec.String cmd) ++ " failed with: " ++ Error err
    /\ exec.String cmd = String.concat " " (exec.Path cmd :: args).
Proof.
  intros Hs Hargs cmd Hpipe Herr Hchild Hexit.
  rewrite (Sign_run st s ks rand digest opts args Hs Hargs).
  fold cmd. rewrite Hpipe, Herr. cbn [log]. rewrite Hchild. cbn [fst snd].
  eexists. split; [reflexivity |].
  assert (Hline : exec.String cmd = String.concat " " (exec.Path cmd :: args)).
  { unfold exec.String. rewrite Herr. apply fold_left_args. }
  unfold exitError. destruct err; try discriminate Hexit; now repeat split.
Qed.




(** X10.  On a key that is not an RSA key the options play no part: any
    two options give the same result and the same final state. *)
Theorem sign_options_ignored_without_rsa (st : State) (s : ptr) (ks : kmsSigner)
        (rand : Reader) (digest : string) (opts1 opts2 : crypto.SignerOpts) :
  nth_error (heap st) s = Some ks ->
  Spec.keyType (PublicKey ks) <> Spec.RSA ->
  Sign s rand digest opts1 st = Sign s rand digest opts2 st.
Proof.
  intros Hs Hkey.
  rewrite (Sign_run st s ks rand digest opts1 _ Hs (signArgs_other ks opts1 Hkey)).
  rewrite (Sign_run st s ks rand digest opts2 _ Hs (signArgs_other ks opts2 Hkey)).
  reflexivity.
Qed.

(** X11.  The salt length of PSS options is never passed on: two PSS
    options with the same hash give the same result and the same final
    state, the command of the child included. *)
Theorem sign_pss_salt_length_ignored (st : State) (s : ptr) (rand : Reader)
        (digest : string) (salt1 salt2 : Z) (h : crypto.Hash) :
  Sign s rand digest
       (crypto.pssOpts (Some {| crypto.SaltLength := salt1; crypto.PSSHash := h |})) st
  = Sign s rand digest
         (crypto.pssOpts (Some {| crypto.SaltLength := salt2; crypto.PSSHash := h |})) st.
Proof.
  unfold Sign, bind, deref, lift.
  destruct (nth_error (heap st) s) as [ks |]; [| reflexivity].
  assert (Hargs : signArgs ks (crypto.pssOpts
                    (Some {| crypto.SaltLength := salt1; crypto.PSSHash := h |}))
                  = signArgs ks (crypto.pssOpts
                      (Some {| crypto.SaltLength := salt2; crypto.PSSHash := h |})))
    by reflexivity.
  now rewrite Hargs.
Qed.

(** X12.  When [Sign] returns a signature and no error, it made one pipe
    and started one child, on the command of [signArgs] and with the digest
    as input; the child ended with success and the signature is the base64
    decoding of its whole output. *)
Theorem sign_success_one_child (st : State) (s : ptr) (rand : Reader)
        (digest : string) (opts : crypto.SignerOpts) (sig : string) :
  fst (Sign s rand digest opts st) = Returned (sig, None) ->
  exists (ks : kmsSigner) (args : list string) (out : string),
    nth_error (heap st) s = Some ks
    /\ signArgs ks opts = Returned (inl args)
    /\ Spec.newEvents st (snd (Sign s rand digest opts st))
       = [StdinPipeCall (signCommand ks args (log st));
          StartCall (signCommand ks args (log st)) digest]
    /\ child (log st ++ [StdinPipeCall (signCommand ks args (log st))])
             (signCommand ks args (log st)) digest = (out, None)
    /\ Base64.DecodeString out = (sig, None).
Proof.
  intros Hok.
  destruct (nth_error (heap st) s) as [ks |] eqn:Hs.
  2:{ unfold Sign, bind, deref in Hok. rewrite Hs in Hok. discriminate Hok. }
  destruct (signArgs ks opts) as [[args | err] |] eqn:Hargs.
  - rewrite (Sign_run st s ks rand digest opts args Hs Hargs) in Hok |- *.
    destruct (os_Pipe _ _); [discriminate Hok |].
    destruct (exec.Err _); [discriminate Hok |].
    cbn [log fst snd] in Hok |- *.
    destruct (child _ _ digest) as [out [err |]] eqn:Hchild;
      cbn [fst snd] in Hok; [discriminate Hok |].
    injection Hok as Hdec.
    exists ks, args, out. rewrite newEvents_app. now repeat split.
  - rewrite (Sign_early st s ks rand digest opts err Hs Hargs) in Hok.
    discriminate Hok.
  - unfold Sign, bind, deref, lift in Hok. rewrite Hs, Hargs in Hok.
    discriminate Hok.
Qed.

(** X13.  A call of [Sign], however it ends, starts at most one child,
    never looks up the plugin again and adds no signer to the heap. *)
Theorem sign_at_most_one_child (st : State) (s : ptr) (rand : Reader)
        (digest : string) (opts : crypto.SignerOpts) :
  let st' := snd (Sign s rand digest opts st) in
  (Fetch.children (Spec.newEvents st st') <= 1)%nat
  /\ existsb Spec.isLookPath (Spec.newEvents st st') = false
  /\ heap st' = heap st.
Proof.
  intros st'. unfold st'. split; [| split; [| apply Sign_heap]].
  - destruct (nth_error (heap st) s) as [ks |] eqn:Hs.
    2:{ unfold Sign, bind, deref. rewrite Hs. cbn [snd].
        rewrite newEvents_same. cbn. lia. }
    destruct (signArgs ks opts) as [[args | err] |] eqn:Hargs.
    + rewrite (Sign_run st s ks rand digest opts args Hs Hargs).
      destruct (os_Pipe _ _); [cbn [snd]; rewrite newEvents_app; cbn; lia |].
      destruct (exec.Err _); cbn [snd]; rewrite newEvents_app; cbn; lia.
    + rewrite (Sign_early st s ks rand digest opts err Hs Hargs). cbn [snd].
      rewrite newEvents_same. cbn. lia.
    + unfold Sign, bind, deref, lift. rewrite Hs, Hargs. cbn [snd].
      rewrite newEvents_same. cbn. lia.
  - destruct (nth_error (heap st) s) as [ks |] eqn:Hs.
    2:{ unfold Sign, bind, deref. rewrite Hs. cbn [snd].
        now rewrite newEvents_same. }
    destruct (signArgs ks opts) as [[args | err] |] eqn:Hargs.
    + rewrite (Sign_run st s ks rand digest opts args Hs Hargs).
      destruct (os_Pipe _ _); [cbn [snd]; now rewrite newEvents_app |].
      destruct (exec.Err _); cbn [snd]; now rewrite newEvents_app.
    + rewrite (Sign_early st s ks rand digest opts err Hs Hargs). cbn [snd].
      now rewrite newEvents_same.
    + unfold Sign, bind, deref, lift. rewrite Hs, Hargs. cbn [snd].
      now rewrite newEvents_same.
Qed.

End SignPaths.

(* ================================================================= *)
(** * Output that ends in newlines *)

Section TrailingNewlines.
Import Base64 Base64Facts.

Lemma isNL_decodeMap (c : ascii) : isNL c = true -> decodeMap c = 255.
Proof.
  unfold isNL. intros H. apply orb_true_iff in H as [H | H];
    apply Ascii.eqb_eq in H; subst c; reflexivity.
Qed.

Lemma skipNL_newlines (nl : string) (si : Z) :
  Strings.allBytes isNL nl = true -> fst (skipNL nl si) = EmptyString.
Proof.
  revert si. induction nl as [| c nl IH]; intros si H; [reflexivity |].
  unfold Strings.allBytes in H. cbn in H. apply andb_true_iff in H as [Hc Hnl].
  cbn [skipNL]. rewrite Hc. now apply IH.
Qed.

Lemma afterPadding_newlines (dbuf : list N) (nl : string) (si : Z) :
  Strings.allBytes isNL nl = true ->
  afterPadding dbuf nl si = (quantumBytes dbuf, None).
Proof.
  intros H. unfold afterPadding.
  pose proof (skipNL_newlines nl si H) as Hs.
  destruct (skipNL nl si) as [r si']. cbn [fst] in Hs. now subst r.
Qed.

Lemma decode_newlines (nl : string) (si : Z) :
  Strings.allBytes isNL nl = true -> decode nl si [] = (EmptyString, None).
Proof.
  revert si. induction nl as [| c nl IH]; intros si H; [reflexivity |].
  unfold Strings.allBytes in H. cbn in H. apply andb_true_iff in H as [Hc Hnl].
  cbn [decode]. rewrite (isNL_decodeMap c Hc). cbn [N.eqb Pos.eqb negb]. rewrite Hc.
  now apply IH.
Qed.

Lemma decode_pad1_newlines (c0 c1 c2 : ascii) (nl : string) (si : Z) :
  decodeMap c0 <> 255 -> decodeMap c1 <> 255 -> decodeMap c2 <> 255 ->
  Strings.allBytes isNL nl = true ->
  decode (String c0 (String c1 (String c2 (String padChar nl)))) si []
  = (quantumBytes [decodeMap c0; decodeMap c1; decodeMap c2], None).
Proof.
  intros H0 H1 H2 Hnl.
  cbn [decode List.length Nat.eqb app].
  rewrite !valid_char by assumption.
  change (negb (decodeMap padChar =? 255)) with false. cbv iota.
  change (isNL padChar) with false. cbv iota.
  change (negb (Ascii.eqb padChar padChar)) with false. cbv iota.
  now apply afterPadding_newlines.
Qed.

Lemma decode_pad2_newlines (c0 c1 : ascii) (nl : string) (si : Z) :
  decodeMap c0 <> 255 -> decodeMap c1 <> 255 ->
  Strings.allBytes isNL nl = true ->
  decode (String c0 (String c1 (String padChar (String padChar nl)))) si []
  = (quantumBytes [decodeMap c0; decodeMap c1], None).
Proof.
  intros H0 H1 Hnl.
  cbn [decode List.length Nat.eqb app].
  rewrite !valid_char by assumption.
  change (negb (decodeMap padChar =? 255)) with false. cbv iota.
  change (isNL padChar) with false. cbv iota.
  change (negb (Ascii.eqb padChar padChar)) with false. cbv iota.
  cbn [skipNL]. change (isNL padChar) with false. cbv iota.
  change (negb (Ascii.eqb padChar padChar)) with false. cbv iota.
  now apply afterPadding_newlines.
Qed.

Lemma decode_EncodeToString_newlines (nl : string) (n : nat) :
  Strings.allBytes isNL nl = true ->
  forall (d : string) (si : Z),
    (String.length d <= n)%nat ->
    decode (EncodeToString d ++ nl) si [] = (d, None).
Proof.
  intros Hnl. induction n as [| n IH]; intros d si Hlen.
  - destruct d; [now apply decode_newlines | cbn in Hlen; lia].
  - destruct d as [| a [| b [| c rest]]].
    + now apply decode_newlines.
    + cbn [EncodeToString String.append].
      rewrite decode_pad2_newlines by (try apply sextet_valid; exact Hnl).
      now rewrite quantum_one.
    + cbn [EncodeToString String.append].
      rewrite decode_pad1_newlines by (try apply sextet_valid; exact Hnl).
      now rewrite quantum_two.
    + cbn [EncodeToString String.append].
      rewrite decode_quantum by apply sextet_valid.
      rewrite quantum_full, IH by (cbn in Hlen |- *; lia).
      reflexivity.
Qed.

End TrailingNewlines.

Section SignNewlines.
Context {rt : Runtime}.
Import Cryptoutil.

(** X14.  When the child exits with success and prints the base64 of some
    bytes followed by any number of line feeds and carriage returns, [Sign]
    returns exactly those bytes and no error: a plugin may end its output
    with a newline. *)
Theorem sign_accepts_trailing_newlines (st : State) (s : ptr) (ks : kmsSigner)
        (rand : Reader) (digest : string) (opts : crypto.SignerOpts)
        (args : list string) (signature nl : string) :
  nth_error (heap st) s = Some ks ->
  signArgs ks opts = Returned (inl args) ->
  let cmd := signCommand ks args (log st) in
  os_Pipe (log st) cmd = None ->
  exec.Err cmd = None ->
  Strings.allBytes Base64.isNL nl = true ->
  child (log st ++ [StdinPipeCall cmd]) cmd digest
    = (Base64.EncodeToString signature ++ nl, None) ->
  fst (Sign s rand digest opts st) = Returned (signature, None).
Proof.
  intros Hs Hargs cmd Hpipe Herr Hnl Hchild.
  rewrite (Sign_run st s ks rand digest opts args Hs Hargs).
  fold cmd. rewrite Hpipe, Herr. cbn [log]. rewrite Hchild. cbn [fst snd].
  unfold Base64.DecodeString.
  now rewrite (decode_EncodeToString_newlines nl (String.length signature) Hnl).
Qed.

End SignNewlines.

(* ================================================================= *)
(** * The provider scheme in any case, and signers from the factory *)

Section ProviderScheme.
Import Strings.

Lemma mapBytes_cons (f : ascii -> ascii) (c : ascii) (s : string) :
  mapBytes f (String c s) = String (f c) (mapBytes f s).
Proof. reflexivity. Qed.

Lemma mapBytes_app (f : ascii -> ascii) (a b : string) :
  mapBytes f (a ++ b) = mapBytes f a ++ mapBytes f b.
Proof.
  induction a as [| c a IH]; [reflexivity |].
  cbn [String.append]. now rewrite !mapBytes_cons, IH.
Qed.

Lemma prefix_app (a b : string) : String.prefix a (a ++ b) = true.
Proof.
  induction a as [| c a IH]; cbn; [now destruct b |].
  destruct (ascii_dec c c); [exact IH | contradiction].
Qed.

Lemma prefix_split (p s : string) :
  String.prefix p s = true -> exists rest : string, s = p ++ rest.
Proof.
  revert s. induction p as [| c p IH]; intros s H.
  - now exists s.
  - destruct s as [| c' s]; [discriminate H |]. cbn in H.
    destruct (ascii_dec c c') as [<- |]; [| discriminate H].
    destruct (IH s H) as [rest ->]. now exists rest.
Qed.

Lemma mapBytes_split (f : ascii -> ascii) (s p rest : string) :
  mapBytes f s = p ++ rest ->
  exists a b : string, s = a ++ b /\ mapBytes f a = p.
Proof.
  revert s. induction p as [| c p IH]; intros s H.
  - now exists EmptyString, s.
  - destruct s as [| c' s]; [discriminate H |].
    rewrite mapBytes_cons in H. cbn [String.append] in H. injection H as Hc Hs.
    destruct (IH s Hs) as (a & b & -> & Ha).
    exists (String c' a), b. now rewrite mapBytes_cons, Hc, Ha.
Qed.

(** For an ASCII provider, the ssh-agent test holds exactly when the
    provider starts with some spelling of the scheme in upper and lower
    case. *)
Lemma sshAgentProvider_spelling {rt : Runtime} (providerId : string) :
  allBytes isASCIIByte providerId = true ->
  Spec.sshAgentProvider providerId = true
  <-> exists scheme rest : string,
        providerId = scheme ++ rest /\ mapBytes lowerByte scheme = "sshagentkms:".
Proof.
  intros Hascii. rewrite (sshAgentProvider_ascii providerId Hascii). split.
  - intros H. apply prefix_split in H as [rest H].
    destruct (mapBytes_split _ _ _ _ H) as (a & b & Hab & Ha). now exists a, b.
  - intros (scheme & rest & -> & Hs). rewrite mapBytes_app, Hs. apply prefix_app.
Qed.

End ProviderScheme.

Section UsingSigners.
Context {rt : Runtime}.
Import Cryptoutil.

(** X15.  For a subprocess signer whose provider is ASCII text:
    [IsX509Signer] answers whether the key is an Ed25519 key when the
    provider starts with [sshagentkms:] spelled in any mix of upper and
    lower case, and whether the key is an ECDSA, RSA or Ed25519 key when it
    does not. *)
Theorem is_x509_signer_ascii_provider (st : State) (p : ptr) (ks : kmsSigner) :
  nth_error (heap st) p = Some ks ->
  Strings.allBytes Strings.isASCIIByte (kms ks) = true ->
  ((exists scheme rest : string,
       kms ks = scheme ++ rest
       /\ Strings.mapBytes Strings.lowerByte scheme = "sshagentkms:") ->
   fst (IsX509Signer (kmsSignerPtr p) st)
   = Returned match Spec.keyType (PublicKey ks) with
              | Spec.Ed25519 => true
              | _ => false
              end)
  /\ (~ (exists scheme rest : string,
            kms ks = scheme ++ rest
            /\ Strings.mapBytes Strings.lowerByte scheme = "sshagentkms:") ->
      fst (IsX509Signer (kmsSignerPtr p) st)
      = Returned match Spec.keyType (PublicKey ks) with
                 | Spec.OtherKey => false
                 | _ => true
                 end).
Proof.
  intros Hp Hascii.
  pose proof (sshAgentProvider_spelling (kms ks) Hascii) as Hspell.
  unfold IsX509Signer, Signer_Public, Public, bind, deref, ret.
  rewrite !Hp. cbv beta iota. fold (Spec.sshAgentProvider (kms ks)).
  destruct (Spec.sshAgentProvider (kms ks)); split; intros H.
  - now destruct (PublicKey ks).
  - exfalso. now apply H, Hspell.
  - apply Hspell in H. discriminate H.
  - now destruct (PublicKey ks).
Qed.



End UsingSigners.

(* ================================================================= *)
(** * [stringifyFlag] and its placeholder pattern *)

Section Placeholder.
Import regexp Main.

Lemma matchHere_gt (s : string) :
  matchHere [lit ">"] s
  = match s with
    | String c s' => if Ascii.eqb c ">" then Some 1%nat else None
    | EmptyString => None
    end.
Proof. destruct s as [| c s]; [reflexivity |]. cbn. now destruct (Ascii.eqb c ">"). Qed.

(** The equation of the lazy star before [>]. *)
Lemma matchHere_lazy (s : string) :
  matchHere [lazyDotStar; lit ">"] s
  = match matchHere [lit ">"] s with
    | Some n => Some n
    | None =>
        match s with
        | String c s' =>
            if Ascii.eqb c "010" then None
            else option_map S (matchHere [lazyDotStar; lit ">"] s')
        | EmptyString => None
        end
    end.
Proof. destruct s; reflexivity. Qed.

Lemma matchHere_lazy_inside (mid post : string) :
  Strings.allBytes inside mid = true ->
  matchHere [lazyDotStar; lit ">"] (mid ++ String ">" post)
  = Some (S (String.length mid)).
Proof.
  induction mid as [| c mid IH]; intros H.
  - rewrite matchHere_lazy, matchHere_gt. reflexivity.
  - unfold Strings.allBytes in H. cbn in H. apply andb_true_iff in H as [Hc Hmid].
    unfold inside in Hc. apply andb_true_iff in Hc as [Hgt Hnl].
    apply negb_true_iff in Hgt, Hnl.
    cbn [String.append]. rewrite matchHere_lazy, matchHere_gt, Hgt, Hnl.
    rewrite (IH Hmid). reflexivity.
Qed.

Lemma matchHere_lazy_sound (s : string) :
  forall n : nat,
    matchHere [lazyDotStar; lit ">"] s = Some n ->
    exists mid post : string,
      s = mid ++ String ">" post
      /\ n = S (String.length mid)
      /\ Strings.allBytes inside mid = true.
Proof.
  induction s as [| c s IH]; intros n H; rewrite matchHere_lazy, matchHere_gt in H.
  - discriminate H.
  - destruct (Ascii.eqb c ">") eqn:Hgt.
    + injection H as <-. apply Ascii.eqb_eq in Hgt. subst c.
      now exists EmptyString, s.
    + destruct (Ascii.eqb c "010") eqn:Hnl; [discriminate H |].
      destruct (matchHere [lazyDotStar; lit ">"] s) as [m |] eqn:Hm;
        [| discriminate H].
      injection H as <-.
      destruct (IH m eq_refl) as (mid & post & -> & -> & Hmid).
      exists (String c mid), post. repeat split.
      unfold Strings.allBytes in *. cbn. unfold inside at 1.
      now rewrite Hgt, Hnl.
Qed.

Lemma matchHere_placeholder (c : ascii) (s : string) :
  matchHere placeholderString (String c s)
  = if Ascii.eqb c "<" then option_map S (matchHere [lazyDotStar; lit ">"] s)
    else None.
Proof. reflexivity. Qed.

Lemma substring_inside (mid post : string) :
  String.substring 0 (S (String.length mid)) (mid ++ String ">" post) = mid ++ ">".
Proof.
  induction mid as [| c mid IH]; cbn; [now destruct post | now rewrite IH].
Qed.

(** The leftmost placeholder: the text before it has no [<]. *)
Lemma find_first (pre mid post : string) :
  Strings.allBytes (fun c => negb (Ascii.eqb c "<")) pre = true ->
  Strings.allBytes inside mid = true ->
  find placeholderString (pre ++ String "<" (mid ++ String ">" post))
  = Some (String "<" (mid ++ ">")).
Proof.
  intros Hpre Hmid. induction pre as [| c pre IH].
  - cbn [String.append find]. rewrite matchHere_placeholder.
    cbn [Ascii.eqb Bool.eqb]. rewrite (matchHere_lazy_inside mid post Hmid).
    cbn [option_map String.substring]. now rewrite substring_inside.
  - unfold Strings.allBytes in Hpre. cbn in Hpre.
    apply andb_true_iff in Hpre as [Hc Hpre]. apply negb_true_iff in Hc.
    cbn [String.append find]. rewrite matchHere_placeholder, Hc.
    now apply IH.
Qed.

(** Whatever [find] returns is a placeholder that stands in the text. *)
Lemma find_sound (s m : string) :
  find placeholderString s = Some m ->
  exists pre mid post : string,
    s = pre ++ m ++ post
    /\ m = String "<" (mid ++ ">")
    /\ Strings.allBytes inside mid = true.
Proof.
  induction s as [| c s IH]; intros H.
  - discriminate H.
  - cbn [find] in H. rewrite matchHere_placeholder in H.
    destruct (Ascii.eqb c "<") eqn:Hc.
    + destruct (matchHere [lazyDotStar; lit ">"] s) as [n |] eqn:Hn.
      * cbn [option_map] in H. injection H as <-.
        apply Ascii.eqb_eq in Hc. subst c.
        destruct (matchHere_lazy_sound s n Hn) as (mid & post & -> & -> & Hmid).
        exists EmptyString, mid, post.
        cbn [String.substring]. rewrite substring_inside.
        repeat split; try assumption.
        cbn [String.append]. f_equal. now rewrite append_assoc.
      * cbn [option_map] in H. destruct (IH H) as (pre & mid & post & -> & Hm & Hmid).
        exists (String c pre), mid, post. now repeat split.
    + destruct (IH H) as (pre & mid & post & -> & Hm & Hmid).
      exists (String c pre), mid, post. now repeat split.
Qed.

(** A text without [>] has no placeholder. *)
Lemma find_none (s : string) :
  Strings.allBytes (fun c => negb (Ascii.eqb c ">")) s = true ->
  find placeholderString s = None.
Proof.
  intros H. destruct (find placeholderString s) as [m |] eqn:Hf; [| reflexivity].
  destruct (find_sound s m Hf) as (pre & mid & post & -> & -> & _).
  exfalso. clear Hf. unfold Strings.allBytes in H.
  induction pre as [| c pre IH].
  - cbn in H. clear -H. induction mid as [| c mid IH]; cbn in H.
    + discriminate H.
    + apply andb_true_iff in H as [_ H]. now apply IH.
  - cbn in H. apply andb_true_iff in H as [_ H]. now apply IH.
Qed.

End Placeholder.

Section StringifyFlag.
Import Main.
Variable FlagNamePrefixer : string -> string -> string.

Lemma stringifyFlag_struct (f : reflect.Value) (fields : list (string * reflect.Field))
      (name usage : string) :
  flagValue f = reflect.struct fields ->
  reflect.FieldByName_String (reflect.struct fields) "Name" = Some name ->
  reflect.FieldByName_String (reflect.struct fields) "Usage" = Some usage ->
  stringifyFlag FlagNamePrefixer f
  = Cryptoutil.Returned
      (FlagNamePrefixer name
         (if (regexp.FindString placeholderString usage =? "")%string
          then "<value>" else regexp.FindString placeholderString usage)
       ++ String "009" usage).
Proof.
  intros Hf Hname Husage. unfold stringifyFlag. now rewrite Hf, Husage, Hname.
Qed.

(** X17.  For a flag (a struct, behind any number of pointers) whose usage
    text has a placeholder [<...>] with no [<] before it and neither [>] nor
    a newline inside, [stringifyFlag] returns the prefixed name with that
    placeholder, a tab and the usage text: the first placeholder of the
    usage wins, whatever follows it. *)
Theorem stringify_flag_first_placeholder (f : reflect.Value)
        (fields : list (string * reflect.Field))
        (name pre mid post : string) :
  flagValue f = reflect.struct fields ->
  reflect.lookup "Name" fields = Some (reflect.stringField name) ->
  reflect.lookup "Usage" fields
    = Some (reflect.stringField (pre ++ String "<" (mid ++ String ">" post))) ->
  Strings.allBytes (fun c => negb (Ascii.eqb c "<")) pre = true ->
  Strings.allBytes inside mid = true ->
  stringifyFlag FlagNamePrefixer f
  = Cryptoutil.Returned
      (FlagNamePrefixer name (String "<" (mid ++ ">"))
       ++ String "009" (pre ++ String "<" (mid ++ String ">" post))).
Proof.
  intros Hf Hname Husage Hpre Hmid.
  rewrite (stringifyFlag_struct f fields name
             (pre ++ String "<" (mid ++ String ">" post)) Hf);
    [| cbn; now rewrite Hname | cbn; now rewrite Husage].
  unfold regexp.FindString. now rewrite (find_first pre mid post Hpre Hmid).
Qed.

(** X18.  For a flag whose usage text has no [>], [stringifyFlag] uses the
    placeholder [<value>]. *)
Theorem stringify_flag_default_placeholder (f : reflect.Value)
        (fields : list (string * reflect.Field)) (name usage : string) :
  flagValue f = reflect.struct fields ->
  reflect.lookup "Name" fields = Some (reflect.stringField name) ->
  reflect.lookup "Usage" fields = Some (reflect.stringField usage) ->
  Strings.allBytes (fun c => negb (Ascii.eqb c ">")) usage = true ->
  stringifyFlag FlagNamePrefixer f
  = Cryptoutil.Returned (FlagNamePrefixer name "<value>" ++ String "009" usage).
Proof.
  intros Hf Hname Husage Hno.
  rewrite (stringifyFlag_struct f fields name usage Hf);
    [| cbn; now rewrite Hname | cbn; now rewrite Husage].
  unfold regexp.FindString. now rewrite (find_none usage Hno).
Qed.

(** X19.  For every flag that is a struct behind any number of pointers,
    [stringifyFlag] returns the prefixed name and placeholder, a tab and the
    usage text, where the name and the usage are what reflection prints for
    the fields [Name] and [Usage].  The placeholder is [<], some bytes that
    are neither [>] nor a newline, and [>]; it is [<value>] or it stands in
    the usage text. *)
Theorem stringify_flag_shape (f : reflect.Value)
        (fields : list (string * reflect.Field)) :
  flagValue f = reflect.struct fields ->
  exists name usage placeholder mid : string,
    reflect.FieldByName_String (reflect.struct fields) "Name" = Some name
    /\ reflect.FieldByName_String (reflect.struct fields) "Usage" = Some usage
    /\ stringifyFlag FlagNamePrefixer f
       = Cryptoutil.Returned
           (FlagNamePrefixer name placeholder ++ String "009" usage)
    /\ placeholder = String "<" (mid ++ ">")
    /\ Strings.allBytes inside mid = true
    /\ (placeholder = "<value>" \/ Spec.contains placeholder usage).
Proof.
  intros Hf.
  destruct (reflect.FieldByName_String (reflect.struct fields) "Name")
    as [name |] eqn:Hname; [| discriminate Hname].
  destruct (reflect.FieldByName_String (reflect.struct fields) "Usage")
    as [usage |] eqn:Husage; [| discriminate Husage].
  exists name, usage.
  rewrite (stringifyFlag_struct f fields name usage Hf Hname Husage).
  unfold regexp.FindString.
  destruct (regexp.find placeholderString usage) as [m |] eqn:Hfind.
  - destruct (find_sound usage m Hfind) as (pre & mid & post & Hu & Hm & Hmid).
    subst m. exists (String "<" (mid ++ ">")), mid. cbn [String.eqb].
    repeat split; try assumption.
    right. rewrite Hu. now exists pre, post.
  - exists "<value>", "value". cbn [String.eqb]. repeat split. now left.
Qed.

(** X20.  [stringifyFlag] looks through pointers; it panics exactly when
    what they lead to is not a struct (a nil pointer, no value, another
    kind).  A struct without a field [Usage] does not make it panic: the
    usage text is then [<invalid Value>], and so is the placeholder. *)
Theorem stringify_flag_reflection (f : reflect.Value) :
  stringifyFlag FlagNamePrefixer (reflect.pointer f) = stringifyFlag FlagNamePrefixer f
  /\ (stringifyFlag FlagNamePrefixer f = Cryptoutil.Panicked
      <-> forall fields, flagValue f <> reflect.struct fields)
  /\ (forall (fields : list (string * reflect.Field)) (name : string),
         flagValue f = reflect.struct fields ->
         reflect.FieldByName_String (reflect.struct fields) "Name" = Some name ->
         reflect.lookup "Usage" fields = None ->
         stringifyFlag FlagNamePrefixer f
         = Cryptoutil.Returned
             (FlagNamePrefixer name "<invalid Value>"
              ++ String "009" "<invalid Value>")).
Proof.
  split; [reflexivity |]. split.
  - unfold stringifyFlag. destruct (flagValue f) as [| | elem | fields | t] eqn:Hf;
      cbn [reflect.FieldByName_String];
      try (split; [intros _ fields; discriminate | reflexivity]).
    split; [discriminate |]. intros H. now specialize (H fields).
  - intros fields name Hf Hname Husage.
    rewrite (stringifyFlag_struct f fields name "<invalid Value>" Hf Hname).
    + reflexivity.
    + cbn. now rewrite Husage.
Qed.

End StringifyFlag.

(* ================================================================= *)
(** * The further properties on sample worlds *)

Section MoreSamples.
Import Cryptoutil.

(** X1 where the plugin is not installed. *)
Lemma create_signer_plugin_not_found_witness :
  fst (@CreateSigner
         (Worlds.faulty (Some (foreignError "not found")) None None ("PEM", None) None)
         "pkcs11:module" "id=2" [] Sample.st0)
  = Returned (None, Some (foreignError "not found")).
Proof.
  exact (proj1 (@create_signer_plugin_not_found
                  (Worlds.faulty (Some (foreignError "not found")) None None
                     ("PEM", None) None)
                  "pkcs11:module" "id=2" [] Sample.st0 (foreignError "not found")
                  ltac:(discriminate) eq_refl)).
Defined.

(** X2 where nothing fails: the new signer is at address 3. *)
Lemma create_signer_kms_success_witness :
  fst (@CreateSigner Worlds.sound "pkcs11:module" "id=2" [] Sample.st0)
  = Returned (Some (kmsSignerPtr 3%nat), None).
Proof.
  exact (proj1 (@create_signer_kms_success Worlds.sound "pkcs11:module" "id=2" []
                  Sample.st0 "PEM" (crypto.ed25519_PublicKey "PEM")
                  ltac:(discriminate) eq_refl eq_refl eq_refl eq_refl)).
Defined.

(** X3 where the plugin does not know the key. *)
Lemma create_signer_kms_fetch_failure_witness :
  fst (@CreateSigner
         (Worlds.faulty None None None
            (EmptyString, Some (ExitError "exit status 1" "no such key")) None)
         "pkcs11:module" "id=2" [] Sample.st0)
  = Returned (None, Some (errorString
      ("command "
         ++ Spec.quoted "/usr/local/bin/step-kms-plugin key --kms pkcs11:module id=2"
         ++ " failed with:" ++ String "010" "no such key"))).
Proof.
  exact (proj1 (@create_signer_kms_fetch_failure
                  (Worlds.faulty None None None
                     (EmptyString, Some (ExitError "exit status 1" "no such key")) None)
                  "pkcs11:module" "id=2" [] Sample.st0
                  EmptyString "exit status 1" "no such key"
                  ltac:(discriminate) eq_refl eq_refl eq_refl)).
Defined.

(** X4 where the plugin prints something that is not a key. *)
Lemma create_signer_kms_parse_failure_witness :
  fst (@CreateSigner
         (Worlds.faulty None None None ("PEM", None) (Some (foreignError "bad PEM")))
         "pkcs11:module" "id=2" [] Sample.st0)
  = Returned (None, Some (foreignError "bad PEM")).
Proof.
  exact (proj1 (@create_signer_kms_parse_failure
                  (Worlds.faulty None None None ("PEM", None)
                     (Some (foreignError "bad PEM")))
                  "pkcs11:module" "id=2" [] Sample.st0 "PEM" (foreignError "bad PEM")
                  ltac:(discriminate) eq_refl eq_refl eq_refl eq_refl)).
Defined.

(** X5 on a file that does not exist. *)
Lemma create_signer_result_witness :
  exists (r : option Signer * option error) (st' : State),
    @CreateSigner Worlds.sound EmptyString "none.pem" [] Sample.st0 = (Returned r, st')
    /\ Fetch.children (Spec.newEvents Sample.st0 st') = 0%nat.
Proof.
  destruct (@create_signer_result Worlds.sound EmptyString "none.pem" [] Sample.st0)
    as (r & st' & Hrun & _ & _ & Hnone & _).
  exists r, st'. split; [exact Hrun | apply Hnone; reflexivity].
Defined.

(** X6 where no pipe can be made. *)
Lemma sign_stdin_pipe_error_witness :
  fst (@Sign (Worlds.faulty None None (Some (foreignError "too many open files"))
                ("PEM", None) None)
         1%nat nilReader "digest" crypto.nilOpts Sample.st0)
  = Returned (EmptyString, Some (foreignError "too many open files")).
Proof.
  exact (proj1 (@sign_stdin_pipe_error
                  (Worlds.faulty None None (Some (foreignError "too many open files"))
                     ("PEM", None) None)
                  Sample.st0 1%nat Sample.edSigner nilReader "digest" crypto.nilOpts
                  ["sign"; "--format"; "base64"; "key.pem"]
                  (foreignError "too many open files") eq_refl eq_refl eq_refl)).
Defined.

(** X7 where the path of the plugin does not resolve. *)
Lemma sign_command_unresolved_witness :
  exists e : error,
    fst (@Sign (Worlds.faulty None (Some (foreignError "not found")) None
                  ("PEM", None) None)
           1%nat nilReader "digest" crypto.nilOpts Sample.st0)
    = Returned (EmptyString, Some e)
    /\ errors.Unwrap e = Some (foreignError "not found").
Proof.
  destruct (@sign_command_unresolved
              (Worlds.faulty None (Some (foreignError "not found")) None
                 ("PEM", None) None)
              Sample.st0 1%nat Sample.edSigner nilReader "digest" crypto.nilOpts
              ["sign"; "--format"; "base64"; "key.pem"]
              (foreignError "not found") eq_refl eq_refl eq_refl eq_refl eq_refl)
    as (e & Hsign & Hunwrap & _).
  exists e. split; [exact Hsign | exact Hunwrap].
Defined.

(** X8 where the child cannot be started. *)
Lemma sign_launch_error_witness :
  exists e : error,
    fst (@Sign (Sample.world (fun _ => (EmptyString, Some (foreignError "fork failed"))))
           1%nat nilReader "digest" crypto.nilOpts Sample.st0)
    = Returned (EmptyString, Some e)
    /\ errors.Unwrap e = Some (foreignError "fork failed").
Proof.
  destruct (@sign_launch_error
              (Sample.world (fun _ => (EmptyString, Some (foreignError "fork failed"))))
              Sample.st0 1%nat Sample.edSigner nilReader "digest" crypto.nilOpts
              ["sign"; "--format"; "base64"; "key.pem"]
              EmptyString (foreignError "fork failed")
              eq_refl eq_refl eq_refl eq_refl eq_refl eq_refl)
    as (e & Hsign & Hunwrap & _).
  exists e. split; [exact Hsign | exact Hunwrap].
Defined.


(** X10 on the Ed25519 signer: nil options and PSS options. *)
Lemma sign_options_ignored_without_rsa_witness :
  @Sign Sample.echo 1%nat nilReader "digest" crypto.nilOpts Sample.st0
  = @Sign Sample.echo 1%nat nilReader "digest" Sample.pss256 Sample.st0.
Proof.
  exact (@sign_options_ignored_without_rsa Sample.echo Sample.st0 1%nat
           Sample.edSigner nilReader "digest" crypto.nilOpts Sample.pss256
           eq_refl ltac:(discriminate)).
Defined.

(** X12 on the echoing plugin. *)
Lemma sign_success_one_child_witness :
  exists (ks : kmsSigner) (args : list string) (out : string),
    nth_error (heap Sample.st0) 1%nat = Some ks
    /\ @signArgs Sample.echo ks crypto.nilOpts = Returned (inl args)
    /\ Base64.DecodeString out = ("digest", None).
Proof.
  destruct (@sign_success_one_child Sample.echo Sample.st0 1%nat nilReader "digest"
              crypto.nilOpts "digest" eq_refl)
    as (ks & args & out & Hs & Hargs & _ & _ & Hdec).
  exists ks, args, out. repeat split; assumption.
Defined.

(** X14 on a plugin that ends its output with a newline. *)
Lemma sign_accepts_trailing_newlines_witness :
  fst (@Sign Worlds.sound 1%nat nilReader "digest" crypto.nilOpts Sample.st0)
  = Returned ("digest", None).
Proof.
  exact (@sign_accepts_trailing_newlines Worlds.sound Sample.st0 1%nat
           Sample.edSigner nilReader "digest" crypto.nilOpts
           ["sign"; "--format"; "base64"; "key.pem"] "digest"
           (String "010" EmptyString)
           eq_refl eq_refl eq_refl eq_refl eq_refl eq_refl).
Defined.

(** X15 on the RSA signer of the provider [SSHAgentKMS:]. *)
Lemma is_x509_signer_ascii_provider_witness :
  fst (@IsX509Signer Sample.echo (kmsSignerPtr 2%nat) Sample.st0) = Returned false.
Proof.
  apply (proj1 (@is_x509_signer_ascii_provider Sample.echo Sample.st0 2%nat
                  Sample.agentSigner eq_refl eq_refl)).
  exists "SSHAgentKMS:", EmptyString. split; reflexivity.
Defined.


(** X17 on a flag with two placeholders: the first one is taken. *)
Lemma stringify_flag_first_placeholder_witness :
  Main.stringifyFlag Worlds.prefixer Worlds.caURL
  = Returned ("--ca-url=<uri>" ++ String "009" "The <uri> of the CA, see <other>").
Proof.
  exact (stringify_flag_first_placeholder Worlds.prefixer Worlds.caURL
           [("Name", reflect.stringField "ca-url");
            ("Usage", reflect.stringField "The <uri> of the CA, see <other>");
            ("Hidden", reflect.otherField "bool")]
           "ca-url" "The " "uri" " of the CA, see <other>"
           eq_refl eq_refl eq_refl eq_refl eq_refl).
Defined.

(** X18 on a flag whose usage has no placeholder. *)
Lemma stringify_flag_default_placeholder_witness :
  Main.stringifyFlag Worlds.prefixer
    (reflect.struct [("Name", reflect.stringField "force");
                     ("Usage", reflect.stringField "Overwrite without asking")])
  = Returned ("--force=<value>" ++ String "009" "Overwrite without asking").
Proof.
  exact (stringify_flag_default_placeholder Worlds.prefixer
           (reflect.struct [("Name", reflect.stringField "force");
                            ("Usage", reflect.stringField "Overwrite without asking")])
           [("Name", reflect.stringField "force");
            ("Usage", reflect.stringField "Overwrite without asking")]
           "force" "Overwrite without asking" eq_refl eq_refl eq_refl eq_refl).
Defined.

(** X19 on the sample flag. *)
Lemma stringify_flag_shape_witness :
  exists name usage placeholder : string,
    Main.stringifyFlag Worlds.prefixer Worlds.caURL
    = Returned (Worlds.prefixer name placeholder ++ String "009" usage).
Proof.
  destruct (stringify_flag_shape Worlds.prefixer Worlds.caURL _ eq_refl)
    as (name & usage & placeholder & mid & _ & _ & Hrun & _).
  exists name, usage, placeholder. exact Hrun.
Defined.

(** X20 on a nil pointer, and on a struct without the field [Usage]. *)
Lemma stringify_flag_reflection_witness :
  Main.stringifyFlag Worlds.prefixer reflect.nilPointer = Panicked
  /\ Main.stringifyFlag Worlds.prefixer
       (reflect.struct [("Name", reflect.stringField "force")])
     = Returned ("--force=<invalid Value>" ++ String "009" "<invalid Value>").
Proof.
  split.
  - apply (proj2 (proj1 (proj2 (stringify_flag_reflection Worlds.prefixer
                                   reflect.nilPointer)))).
    intros fields. discriminate.
  - exact (proj2 (proj2 (stringify_flag_reflection Worlds.prefixer
                           (reflect.struct [("Name", reflect.stringField "force")])))
             [("Name", reflect.stringField "force")] "force" eq_refl eq_refl eq_refl).
Defined.

End MoreSamples.
